(** * Backup server (server.js): file stores, retention sweeper and backup API

    A shallow embedding of [server.js].  The two directories the server
    works on ([temp] and [backups]) are finite maps from entry names to
    nodes; the handlers are written in a state-and-exception monad over the
    server state, so that what a handler has already done to the stores
    survives an exception raised later in the same handler, as it does in
    the JavaScript. *)

From Stdlib Require Import ZArith Ascii String.
From stdpp Require Import gmap strings list sorting pretty.

Local Open Scope Z_scope.

(** ** Characters and strings *)

Definition dquote : ascii := "034"%char.
Definition backslash : ascii := "092"%char.
Definition newline : ascii := "010"%char.

Definition str1 (c : ascii) : string := String c EmptyString.

(** [s.endsWith(suffix)] *)
Fixpoint endsWith (s suffix : string) : bool :=
  if String.eqb s suffix then true
  else match s with
       | EmptyString => false
       | String _ s' => endsWith s' suffix
       end.

(** ** The file system *)

(** An entry of a directory: a regular file with its text and its
    last-modified time in milliseconds, or a sub-directory. *)
Inductive node : Type :=
  | File (content : string) (mtimeMs : Z)
  | Directory (mtimeMs : Z).

Definition node_mtimeMs (n : node) : Z :=
  match n with
  | File _ t => t
  | Directory t => t
  end.

(** The two directories of the server: [tempDir] and [backupsDir]. *)
Inductive dirname : Type := tempDir | backupsDir.

(** [path.join(dir, name)]: names are single path components. *)
Definition path : Type := dirname * string.

Inductive error : Type :=
  | ENOENT (p : path)
  | EISDIR (p : path)
  | SyntaxError
  | RangeError.

(** A line written with [console.error]. *)
Record logline : Type := LogLine { log_text : string; log_error : error }.

(** The state the handlers act on: both directories, the clock read by
    [Date.now()] and [new Date()], and the error console. *)
Record server : Type := Server {
  temp : gmap string node;
  backups : gmap string node;
  clock : Z;
  console : list logline
}.

Definition get_dir (d : dirname) (s : server) : gmap string node :=
  match d with
  | tempDir => temp s
  | backupsDir => backups s
  end.

Definition set_dir (d : dirname) (m : gmap string node) (s : server) : server :=
  match d with
  | tempDir => Server m (backups s) (clock s) (console s)
  | backupsDir => Server (temp s) m (clock s) (console s)
  end.

(** ** Computations that may throw *)

Inductive outcome (A : Type) : Type :=
  | Ok (a : A)
  | Throw (e : error).
Arguments Ok {A} a.
Arguments Throw {A} e.

Definition io (A : Type) : Type := server -> outcome A * server.

Definition ret {A} (a : A) : io A := fun s => (Ok a, s).

Definition throw {A} (e : error) : io A := fun s => (Throw e, s).

Definition bind {A B} (m : io A) (k : A -> io B) : io B :=
  fun s =>
    match m s with
    | (Ok a, s') => k a s'
    | (Throw e, s') => (Throw e, s')
    end.

(** [try { body } catch (error) { handler }] *)
Definition try_catch {A} (body : io A) (handler : error -> io A) : io A :=
  fun s =>
    match body s with
    | (Ok a, s') => (Ok a, s')
    | (Throw e, s') => handler e s'
    end.

Declare Scope io_scope.
Delimit Scope io_scope with io.
Notation "x <- m ;; k" := (bind m (fun x => k))
  (at level 100, m at next level, right associativity) : io_scope.
Notation "m ;; k" := (bind m (fun _ => k))
  (at level 100, right associativity) : io_scope.
Local Open Scope io_scope.

(** [for (const x of xs) { body(x) }] *)
Fixpoint for_of {A} (xs : list A) (body : A -> io unit) : io unit :=
  match xs with
  | [] => ret tt
  | x :: xs' => body x ;; for_of xs' body
  end.

Definition Date_now : io Z := fun s => (Ok (clock s), s).

Definition console_error (text : string) (e : error) : io unit :=
  fun s => (Ok tt, Server (temp s) (backups s) (clock s) (console s ++ [LogLine text e])).

(** The names of the entries of a directory in the order [fs.readdir]
    yields them: the runtime sorts the names it has scanned, byte by byte. *)
Definition readdir_names (m : gmap string node) : list string :=
  merge_sort String.le (map_to_list m).*1.

(** [fs.readdir] *)
Definition fs_readdir (d : dirname) : io (list string) :=
  fun s => (Ok (readdir_names (get_dir d s)), s).

(** [fs.stat] *)
Definition fs_stat (p : path) : io node :=
  fun s =>
    match get_dir p.1 s !! p.2 with
    | Some n => (Ok n, s)
    | None => (Throw (ENOENT p), s)
    end.

(** [fs.unlink]: removes a regular file; a directory is refused. *)
Definition fs_unlink (p : path) : io unit :=
  fun s =>
    match get_dir p.1 s !! p.2 with
    | Some (File _ _) => (Ok tt, set_dir p.1 (delete p.2 (get_dir p.1 s)) s)
    | Some (Directory _) => (Throw (EISDIR p), s)
    | None => (Throw (ENOENT p), s)
    end.

(** [fs.readFile(p, 'utf8')] *)
Definition fs_readFile (p : path) : io string :=
  fun s =>
    match get_dir p.1 s !! p.2 with
    | Some (File c _) => (Ok c, s)
    | Some (Directory _) => (Throw (EISDIR p), s)
    | None => (Throw (ENOENT p), s)
    end.

(** [fs.writeFile]: creates the file or replaces its content; the file is
    stamped with the current time. *)
Definition fs_writeFile (p : path) (content : string) : io unit :=
  fun s =>
    match get_dir p.1 s !! p.2 with
    | Some (Directory _) => (Throw (EISDIR p), s)
    | _ => (Ok tt, set_dir p.1 (<[p.2 := File content (clock s)]> (get_dir p.1 s)) s)
    end.

(** ** The retention sweeper *)

Definition oneHour : Z := 60 * 60 * 1000.

(** The body of the [for] loop of [cleanupTempFiles]. *)
Definition sweep_entry (now : Z) (file : string) : io unit :=
  let filePath := (tempDir, file) in
  stats <- fs_stat filePath ;;
  if now - node_mtimeMs stats >? oneHour
  then fs_unlink filePath
  else ret tt.

Definition cleanupTempFiles : io unit :=
  try_catch
    (files <- fs_readdir tempDir ;;
     now <- Date_now ;;
     for_of files (sweep_entry now))
    (fun e => console_error "Error cleaning up temp files:" e).

(** ** JSON values

    The documents the server stores.  Numbers are the integers, written in
    decimal (fractions and exponents are not modelled and are refused by
    [JSON_parse]); strings are sequences of code units below 256; an object
    is the list of its properties in insertion order (index-like names are
    not moved to the front). *)

#[warnings="-register-all"]
Inductive json : Type :=
  | JNull
  | JBool (b : bool)
  | JNum (n : Z)
  | JStr (s : string)
  | JArr (items : list json)
  | JObj (props : list (string * json)).

(** *** [JSON.stringify(value, null, 2)] *)

Definition hex_digit (n : N) : ascii :=
  ascii_of_N (if (n <? 10)%N then 48 + n else 87 + n)%N.

(** One code unit of a string literal, escaped as the serializer does. *)
Definition quote_char (c : ascii) : string :=
  if Ascii.eqb c dquote then String backslash (str1 dquote)
  else if Ascii.eqb c backslash then String backslash (str1 backslash)
  else if Ascii.eqb c "008" then String backslash "b"
  else if Ascii.eqb c "009" then String backslash "t"
  else if Ascii.eqb c "010" then String backslash "n"
  else if Ascii.eqb c "012" then String backslash "f"
  else if Ascii.eqb c "013" then String backslash "r"
  else if (N_of_ascii c <? 32)%N
       then String backslash
              (String "u" (String "0" (String "0"
                 (String (hex_digit (N_of_ascii c / 16))
                    (str1 (hex_digit (N_of_ascii c mod 16)))))))
  else str1 c.

Fixpoint quote_chars (s : string) : string :=
  match s with
  | EmptyString => str1 dquote
  | String c s' => quote_char c +:+ quote_chars s'
  end.

Definition quote (s : string) : string := String dquote (quote_chars s).

Fixpoint spaces (n : nat) : string :=
  match n with
  | O => EmptyString
  | S n' => String " " (spaces n')
  end.

(** [partial.join(separator)] *)
Fixpoint join (sep : string) (parts : list string) : string :=
  match parts with
  | [] => EmptyString
  | [p] => p
  | p :: ps => p +:+ sep +:+ join sep ps
  end.

(** Serialization of a value that sits at indentation [indent]. *)
Fixpoint stringify_at (indent : nat) (v : json) : string :=
  match v with
  | JNull => "null"
  | JBool true => "true"
  | JBool false => "false"
  | JNum n => pretty n
  | JStr s => quote s
  | JArr [] => "[]"
  | JArr items =>
      let stepback := spaces indent in
      let indent' := (indent + 2)%nat in
      let separator := String "," (String newline (spaces indent')) in
      "[" +:+ str1 newline +:+ spaces indent'
          +:+ join separator (map (stringify_at indent') items)
          +:+ str1 newline +:+ stepback +:+ "]"
  | JObj [] => "{}"
  | JObj props =>
      let stepback := spaces indent in
      let indent' := (indent + 2)%nat in
      let separator := String "," (String newline (spaces indent')) in
      "{" +:+ str1 newline +:+ spaces indent'
          +:+ join separator
                (map (fun kv => quote kv.1 +:+ ": " +:+ stringify_at indent' kv.2) props)
          +:+ str1 newline +:+ stepback +:+ "}"
  end.

Definition JSON_stringify (v : json) : string := stringify_at 0 v.

(** *** [JSON.parse] *)

Definition is_ws (c : ascii) : bool :=
  Ascii.eqb c " " || Ascii.eqb c "009" || Ascii.eqb c "010" || Ascii.eqb c "013".

Fixpoint skip_ws (s : string) : string :=
  match s with
  | String c s' => if is_ws c then skip_ws s' else s
  | EmptyString => s
  end.

Definition digit_of (c : ascii) : option Z :=
  let n := Z.of_N (N_of_ascii c) in
  if (48 <=? n) && (n <=? 57) then Some (n - 48) else None.

Definition hex_of (c : ascii) : option N :=
  let n := N_of_ascii c in
  if (48 <=? n)%N && (n <=? 57)%N then Some (n - 48)%N
  else if (97 <=? n)%N && (n <=? 102)%N then Some (n - 87)%N
  else if (65 <=? n)%N && (n <=? 70)%N then Some (n - 55)%N
  else None.

Fixpoint parse_digits (acc : Z) (s : string) : Z * string :=
  match s with
  | String c s' =>
      match digit_of c with
      | Some d => parse_digits (10 * acc + d) s'
      | None => (acc, s)
      end
  | EmptyString => (acc, s)
  end.

(** Does a fraction or an exponent follow?  Such numbers are outside the
    integers modelled here. *)
Definition frac_or_exp (s : string) : bool :=
  match s with
  | String c _ => Ascii.eqb c "." || Ascii.eqb c "e" || Ascii.eqb c "E"
  | EmptyString => false
  end.

Definition parse_nat (s : string) : option (Z * string) :=
  match s with
  | String c s' =>
      match digit_of c with
      | Some d =>
          let '(n, rest) := if d =? 0 then (0, s') else parse_digits d s' in
          if frac_or_exp rest then None else Some (n, rest)
      | None => None
      end
  | EmptyString => None
  end.

Definition parse_number (s : string) : option (Z * string) :=
  match s with
  | String c s' =>
      if Ascii.eqb c "-"
      then match parse_nat s' with
           | Some (n, rest) => Some (- n, rest)
           | None => None
           end
      else parse_nat s
  | EmptyString => None
  end.

(** The character a one-letter escape stands for. *)
Definition unescape (e : ascii) : option ascii :=
  if Ascii.eqb e dquote then Some dquote
  else if Ascii.eqb e backslash then Some backslash
  else if Ascii.eqb e "/" then Some "/"%char
  else if Ascii.eqb e "b" then Some "008"%char
  else if Ascii.eqb e "t" then Some "009"%char
  else if Ascii.eqb e "n" then Some "010"%char
  else if Ascii.eqb e "f" then Some "012"%char
  else if Ascii.eqb e "r" then Some "013"%char
  else None.

Definition hex4 (a b c d : ascii) : option ascii :=
  match hex_of a, hex_of b, hex_of c, hex_of d with
  | Some x, Some y, Some z, Some w =>
      if (x =? 0)%N && (y =? 0)%N then Some (ascii_of_N (16 * z + w)) else None
  | _, _, _, _ => None
  end.

(** The characters of a string literal after its opening quote, up to and
    including the closing quote. *)
Fixpoint parse_chars (s : string) : option (string * string) :=
  match s with
  | EmptyString => None
  | String c s' =>
      if Ascii.eqb c dquote then Some (EmptyString, s')
      else if Ascii.eqb c backslash then
        match s' with
        | String e s'' =>
            if Ascii.eqb e "u" then
              match s'' with
              | String h1 (String h2 (String h3 (String h4 s4))) =>
                  match hex4 h1 h2 h3 h4, parse_chars s4 with
                  | Some c', Some (str, rest) => Some (String c' str, rest)
                  | _, _ => None
                  end
              | _ => None
              end
            else
              match unescape e, parse_chars s'' with
              | Some c', Some (str, rest) => Some (String c' str, rest)
              | _, _ => None
              end
        | EmptyString => None
        end
      else if (N_of_ascii c <? 32)%N then None
      else match parse_chars s' with
           | Some (str, rest) => Some (String c str, rest)
           | None => None
           end
  end.

(** [s] with [word] removed from its front. *)
Fixpoint expect (word s : string) : option string :=
  match word, s with
  | EmptyString, _ => Some s
  | String a word', String b s' => if Ascii.eqb a b then expect word' s' else None
  | String _ _, EmptyString => None
  end.

(** The elements of an array after the first bracket: values separated by
    commas, closed by a bracket. *)
Fixpoint parse_elements (value : string -> option (json * string))
    (fuel : nat) (s : string) : option (list json * string) :=
  match fuel with
  | O => None
  | S fuel' =>
      match value s with
      | Some (v, r) =>
          match skip_ws r with
          | String c r' =>
              if Ascii.eqb c "," then
                match parse_elements value fuel' r' with
                | Some (vs, rest) => Some (v :: vs, rest)
                | None => None
                end
              else if Ascii.eqb c "]" then Some ([v], r')
              else None
          | EmptyString => None
          end
      | None => None
      end
  end.

(** The properties of an object after the first brace. *)
Fixpoint parse_members (value : string -> option (json * string))
    (fuel : nat) (s : string) : option (list (string * json) * string) :=
  match fuel with
  | O => None
  | S fuel' =>
      match skip_ws s with
      | String q s1 =>
          if Ascii.eqb q dquote then
            match parse_chars s1 with
            | Some (k, s2) =>
                match skip_ws s2 with
                | String colon s3 =>
                    if Ascii.eqb colon ":" then
                      match value s3 with
                      | Some (v, r) =>
                          match skip_ws r with
                          | String c r' =>
                              if Ascii.eqb c "," then
                                match parse_members value fuel' r' with
                                | Some (kvs, rest) => Some ((k, v) :: kvs, rest)
                                | None => None
                                end
                              else if Ascii.eqb c "}" then Some ([(k, v)], r')
                              else None
                          | EmptyString => None
                          end
                      | None => None
                      end
                    else None
                | EmptyString => None
                end
            | None => None
            end
          else None
      | EmptyString => None
      end
  end.

(** Defining property [k] on an object: an existing property keeps its
    place and takes the new value, a new one goes last. *)
Fixpoint define_property (k : string) (v : json) (props : list (string * json))
    : list (string * json) :=
  match props with
  | [] => [(k, v)]
  | (k', v') :: props' =>
      if String.eqb k k' then (k', v) :: props'
      else (k', v') :: define_property k v props'
  end.

Definition object_of (kvs : list (string * json)) : json :=
  JObj (fold_left (fun props kv => define_property kv.1 kv.2 props) kvs []).

Fixpoint parse_value (fuel : nat) (s : string) : option (json * string) :=
  match fuel with
  | O => None
  | S fuel' =>
      match skip_ws s with
      | EmptyString => None
      | String c r =>
          if Ascii.eqb c "n" then
            match expect "ull" r with Some rest => Some (JNull, rest) | None => None end
          else if Ascii.eqb c "t" then
            match expect "rue" r with Some rest => Some (JBool true, rest) | None => None end
          else if Ascii.eqb c "f" then
            match expect "alse" r with Some rest => Some (JBool false, rest) | None => None end
          else if Ascii.eqb c dquote then
            match parse_chars r with
            | Some (str, rest) => Some (JStr str, rest)
            | None => None
            end
          else if Ascii.eqb c "[" then
            match skip_ws r with
            | String c' r' =>
                if Ascii.eqb c' "]" then Some (JArr [], r')
                else match parse_elements (parse_value fuel') fuel' r with
                     | Some (vs, rest) => Some (JArr vs, rest)
                     | None => None
                     end
            | EmptyString => None
            end
          else if Ascii.eqb c "{" then
            match skip_ws r with
            | String c' r' =>
                if Ascii.eqb c' "}" then Some (JObj [], r')
                else match parse_members (parse_value fuel') fuel' r with
                     | Some (kvs, rest) => Some (object_of kvs, rest)
                     | None => None
                     end
            | EmptyString => None
            end
          else
            match parse_number (String c r) with
            | Some (n, rest) => Some (JNum n, rest)
            | None => None
            end
      end
  end.

(** [JSON.parse(text)]; [None] stands for the [SyntaxError] it throws. *)
Definition JSON_parse (text : string) : option json :=
  match parse_value (S (String.length text)) text with
  | Some (v, rest) =>
      match skip_ws rest with
      | EmptyString => Some v
      | String _ _ => None
      end
  | None => None
  end.

(** [JSON.parse] inside a handler. *)
Definition JSON_parse_io (text : string) : io json :=
  match JSON_parse text with
  | Some v => ret v
  | None => throw SyntaxError
  end.

(** ** Dates *)

(** Decimal digits of [n], padded with zeros on the left to [width]. *)
Fixpoint pad0 (width : nat) (n : Z) : string :=
  match width with
  | O => EmptyString
  | S w => pad0 w (n / 10) +:+ str1 (ascii_of_N (Z.to_N (48 + n mod 10)))
  end.

(** Year, month and day of the day numbered [days] from 1 January 1970. *)
Definition civil_from_days (days : Z) : Z * Z * Z :=
  let z := days + 719468 in
  let era := z / 146097 in
  let doe := z mod 146097 in
  let yoe := (doe - doe / 1460 + doe / 36524 - doe / 146096) / 365 in
  let doy := doe - (365 * yoe + yoe / 4 - yoe / 100) in
  let mp := (5 * doy + 2) / 153 in
  let d := doy - (153 * mp + 2) / 5 + 1 in
  let m := if mp <? 10 then mp + 3 else mp - 9 in
  let y := yoe + era * 400 + (if m <=? 2 then 1 else 0) in
  (y, m, d).

Definition msPerDay : Z := 86400000.

(** The largest time value a [Date] holds. *)
Definition maxTime : Z := 8640000000000000.

Definition year_string (y : Z) : string :=
  if (0 <=? y) && (y <=? 9999) then pad0 4 y
  else if y <? 0 then "-" +:+ pad0 6 (- y)
  else "+" +:+ pad0 6 y.

(** [new Date(t).toISOString()] for a numeric [t]; [None] stands for the
    [RangeError] thrown on an invalid date. *)
Definition Date_toISOString (t : Z) : option string :=
  if (- maxTime <=? t) && (t <=? maxTime) then
    let '(y, m, d) := civil_from_days (t / msPerDay) in
    let ms := t mod msPerDay in
    Some (year_string y +:+ "-" +:+ pad0 2 m +:+ "-" +:+ pad0 2 d
          +:+ "T" +:+ pad0 2 (ms / 3600000)
          +:+ ":" +:+ pad0 2 (ms / 60000 mod 60)
          +:+ ":" +:+ pad0 2 (ms / 1000 mod 60)
          +:+ "." +:+ pad0 3 (ms mod 1000) +:+ "Z")
  else None.

Definition Date_toISOString_io (t : Z) : io string :=
  match Date_toISOString t with
  | Some iso => ret iso
  | None => throw RangeError
  end.

(** [s.replace(/[:.]/g, '-')] *)
Fixpoint replace_colon_dot (s : string) : string :=
  match s with
  | EmptyString => EmptyString
  | String c s' =>
      String (if Ascii.eqb c ":" || Ascii.eqb c "." then "-"%char else c)
             (replace_colon_dot s')
  end.

Definition backup_filename (iso : string) : string :=
  "backup_" +:+ replace_colon_dot iso +:+ ".json".

(** ** The backup API *)

(** The response envelope. *)
Record envelope : Type := Envelope {
  success : bool;
  message : option string;
  chunkId : option string;
  data : option json
}.

Record response : Type := Response { status : Z; body : envelope }.

(** [res.json(...)] and [res.status(code).json(...)] *)
Definition res_json (e : envelope) : response := Response 200 e.
Definition res_status_json (code : Z) (e : envelope) : response := Response code e.

Definition failure (msg : string) : envelope := Envelope false (Some msg) None None.

(** The body of [POST /api/backup/chunk]. *)
Record chunk_body : Type := ChunkBody {
  chunk : string;
  index : Z;
  total : Z;
  timestamp : Z
}.

(** The body of [POST /api/backup/combine]. *)
Record combine_body : Type := CombineBody {
  chunkIds : list string;
  combine_timestamp : Z
}.

Definition chunk_id (timestamp index : Z) : string :=
  "chunk_" +:+ pretty timestamp +:+ "_" +:+ pretty index.

(** [app.post('/api/backup/chunk')] *)
Definition post_backup_chunk (req : chunk_body) : io response :=
  try_catch
    (let chunkId := chunk_id (timestamp req) (index req) in
     let chunkPath := (tempDir, chunkId) in
     fs_writeFile chunkPath (chunk req) ;;
     ret (res_json (Envelope true None (Some chunkId) None)))
    (fun error =>
       console_error "Error saving chunk:" error ;;
       ret (res_status_json 500 (failure "Failed to save chunk"))).

(** The loop of the combine handler: each chunk is read, appended to
    [combinedData] and unlinked, in the order of the list. *)
Fixpoint combine_chunks (chunkIds : list string) (combinedData : string) : io string :=
  match chunkIds with
  | [] => ret combinedData
  | chunkId :: rest =>
      let chunkPath := (tempDir, chunkId) in
      chunk <- fs_readFile chunkPath ;;
      let combinedData := combinedData +:+ chunk in
      fs_unlink chunkPath ;;
      combine_chunks rest combinedData
  end.

(** [app.post('/api/backup/combine')] *)
Definition post_backup_combine (req : combine_body) : io response :=
  try_catch
    (combinedData <- combine_chunks (chunkIds req) EmptyString ;;
     data <- JSON_parse_io combinedData ;;
     iso <- Date_toISOString_io (combine_timestamp req) ;;
     let filename := backup_filename iso in
     let filepath := (backupsDir, filename) in
     fs_writeFile filepath (JSON_stringify data) ;;
     ret (res_json (Envelope true (Some "Backup saved successfully") None None)))
    (fun error =>
       console_error "Error combining chunks:" error ;;
       ret (res_status_json 500 (failure "Failed to combine chunks"))).

(** [app.post('/api/backup')] *)
Definition post_backup (data : json) : io response :=
  try_catch
    (now <- Date_now ;;
     iso <- Date_toISOString_io now ;;
     let filename := backup_filename iso in
     let filepath := (backupsDir, filename) in
     fs_writeFile filepath (JSON_stringify data) ;;
     ret (res_json (Envelope true (Some "Backup saved successfully") None None)))
    (fun error =>
       console_error "Error saving backup:" error ;;
       ret (res_status_json 500 (failure "Failed to save backup"))).

(** [files.filter(file => file.endsWith('.json')).sort().reverse()[0]] *)
Definition latest_of (files : list string) : option string :=
  head (reverse (merge_sort String.le
                   (List.filter (fun file => endsWith file ".json") files))).

(** [app.get('/api/backup')] *)
Definition get_backup : io response :=
  try_catch
    (files <- fs_readdir backupsDir ;;
     if (length files =? 0)%nat
     then ret (res_status_json 404 (failure "No backups found"))
     else
       match latest_of files with
       | None => ret (res_status_json 404 (failure "No backup files found"))
       | Some latestFile =>
           let filepath := (backupsDir, latestFile) in
           data <- fs_readFile filepath ;;
           parsed <- JSON_parse_io data ;;
           ret (res_json (Envelope true None None (Some parsed)))
       end)
    (fun error =>
       console_error "Error loading backup:" error ;;
       ret (res_status_json 500 (failure "Failed to load backup"))).

(** ** Predicates used in the statements *)

(** An entry that a sweep at time [now] keeps: its age is at most one hour. *)
Definition fresh (now : Z) (entry : string * node) : Prop :=
  now - node_mtimeMs entry.2 <= oneHour.

Global Instance fresh_dec now entry : Decision (fresh now entry).
Proof. unfold fresh. apply _. Defined.

Definition is_file (n : node) : bool :=
  match n with
  | File _ _ => true
  | Directory _ => false
  end.

(** A store that holds regular files only. *)
Definition only_files (m : gmap string node) : Prop :=
  map_Forall (λ _ n, is_file n = true) m.

(** The texts [cs] one after the other, nothing in between. *)
Definition concat_text (cs : list string) : string :=
  foldr String.append EmptyString cs.






(** ** Sample states *)

(** Temp Store of the example of C7, two hours after [T0 = 0]: one chunk
    written at [T0], one written 1.9 hours later. *)
Definition two_chunks : server :=
  Server (<["chunk_0_0" := File "old" 0]> (<["chunk_0_1" := File "new" 6840000]> ∅))
         ∅ 7200000 [].

(** A chunk that is exactly one hour old when the sweeper runs. *)
Definition hour_old_chunk : server :=
  Server (<["chunk_0_0" := File "x" 0]> ∅) ∅ 3600000 [].

(** A Temp Store in which a sub-directory is listed before two chunks, all
    three last modified two hours before the sweep. *)
Definition blocked_sweep : server :=
  Server (<["archive" := Directory 0]>
            (<["chunk_5_0" := File "a" 0]> (<["chunk_5_1" := File "b" 0]> ∅)))
         ∅ 7200000 [].

(** A server on which two chunks of the document [{"a":[1,2]}] have been
    uploaded with timestamp 5. *)
Definition chunk_a : string := "{" +:+ quote "a" +:+ ":".
Definition chunk_b : string := "[1,2]}".

Definition two_uploads : server :=
  Server (<["chunk_5_0" := File chunk_a 1700000000000]>
            (<["chunk_5_1" := File chunk_b 1700000000000]> ∅))
         ∅ 1700000000000 [].



(** A Backup Store that holds a single file, not a snapshot. *)
Definition notes_only : server :=
  Server ∅ (<["notes.txt" := File "zzz" 1709164800001]> ∅) 1709164800002 [].





(** ** Requests, the timer and runs of the server *)

(** What the server reacts to: the four API routes, a run of the sweeper,
    and the passing of time. *)
Inductive request : Type :=
  | PostChunk (req : chunk_body)
  | PostCombine (req : combine_body)
  | PostBackup (data : json)
  | GetBackup
  | Cleanup
  | Elapse (ms : N).

(** The reaction to one request; the sweeper and the clock answer nothing. *)
Definition serve (r : request) : io (option response) :=
  match r with
  | PostChunk req => res <- post_backup_chunk req ;; ret (Some res)
  | PostCombine req => res <- post_backup_combine req ;; ret (Some res)
  | PostBackup data => res <- post_backup data ;; ret (Some res)
  | GetBackup => res <- get_backup ;; ret (Some res)
  | Cleanup => cleanupTempFiles ;; ret None
  | Elapse ms =>
      fun s => (Ok None, Server (temp s) (backups s) (clock s + Z.of_N ms) (console s))
  end.

(** The state after a sequence of requests. *)
Definition serve_all (rs : list request) (s : server) : server :=
  fold_left (fun s r => (serve r s).2) rs s.


(** The server at start-up: both directories exist and are empty. *)
Definition started (now : Z) : server := Server ∅ ∅ now [].

(** The period of [setInterval(cleanupTempFiles, 60 * 60 * 1000)]. *)
Definition interval : N := 60 * 60 * 1000.






(** ** Dates with a four-digit year *)

(** The steps of [civil_from_days] inside one 400-year era. *)
Definition yoe_of (doe : Z) : Z := (doe - doe / 1460 + doe / 36524 - doe / 146096) / 365.
Definition doy_of (doe : Z) : Z :=
  doe - (365 * yoe_of doe + yoe_of doe / 4 - yoe_of doe / 100).
Definition mp_of (doy : Z) : Z := (5 * doy + 2) / 153.
Definition dom_of (doy : Z) : Z := doy - (153 * mp_of doy + 2) / 5 + 1.

(** The first and the last millisecond of the years 0000 to 9999, the
    dates whose ISO rendering starts with a plain four-digit year. *)
Definition firstPlainYear : Z := -62167219200000.
Definition lastPlainYear : Z := 253402300799999.

(** The name of the snapshot stamped with these fields. *)
Definition stamp_name (y m d h mi s ms : Z) : string :=
  "backup_" +:+ pad0 4 y +:+ String "-" (pad0 2 m +:+ String "-" (pad0 2 d +:+ String "T"
    (pad0 2 h +:+ String "-" (pad0 2 mi +:+ String "-" (pad0 2 s +:+ String "-"
      (pad0 3 ms +:+ String "Z" ".json")))))).




(** * Facts *)

(** ** Strings *)

Lemma sapp_cons c s t : String c s +:+ t = String c (s +:+ t).
Proof. reflexivity. Qed.



Lemma sapp_assoc s t u : (s +:+ t) +:+ u = s +:+ (t +:+ u).
Proof. induction s as [|c s IH]; [done|]. by rewrite !sapp_cons, IH. Qed.

(** ** The monad *)

Lemma for_of_app {A} (xs ys : list A) (body : A → io unit) (s : server) :
  for_of (xs ++ ys) body s = (for_of xs body ;; for_of ys body) s.
Proof.
  revert s. induction xs as [|x xs IH]; intros s; simpl.
  - reflexivity.
  - unfold bind in *. destruct (body x s) as [[[]|e] s1]; [apply IH|reflexivity].
Qed.

(** ** The sweeper *)

Section sweep.
Variable now : Z.

Lemma sweep_entry_absent file s :
  temp s !! file = None →
  sweep_entry now file s = (Throw (ENOENT (tempDir, file)), s).
Proof. intros H. unfold sweep_entry, bind, fs_stat. simpl. by rewrite H. Qed.

Lemma sweep_entry_fresh file n s :
  temp s !! file = Some n → now - node_mtimeMs n <= oneHour →
  sweep_entry now file s = (Ok tt, s).
Proof.
  intros H Hage. unfold sweep_entry, bind, fs_stat. simpl. rewrite H.
  destruct (Z.gtb_spec (now - node_mtimeMs n) oneHour); [lia|done].
Qed.

Lemma sweep_entry_stale_file file c t s :
  temp s !! file = Some (File c t) → now - t > oneHour →
  sweep_entry now file s
  = (Ok tt, Server (delete file (temp s)) (backups s) (clock s) (console s)).
Proof.
  intros H Hage. unfold sweep_entry, bind, fs_stat, fs_unlink. simpl. rewrite H. simpl.
  destruct (Z.gtb_spec (now - t) oneHour); [|lia]. by rewrite H.
Qed.

Lemma sweep_entry_stale_dir file t s :
  temp s !! file = Some (Directory t) → now - t > oneHour →
  sweep_entry now file s = (Throw (EISDIR (tempDir, file)), s).
Proof.
  intros H Hage. unfold sweep_entry, bind, fs_stat, fs_unlink. simpl. rewrite H. simpl.
  destruct (Z.gtb_spec (now - t) oneHour); [|lia]. by rewrite H.
Qed.

(** Whatever the listing and however the loop ends, it touches nothing
    but the Temp Store, and there it only removes stale regular files. *)
Lemma sweep_loop_frame files s r s' :
  for_of files (sweep_entry now) s = (r, s') →
  backups s' = backups s ∧ clock s' = clock s ∧ console s' = console s ∧
  ∀ name, temp s' !! name = temp s !! name ∨
          (temp s' !! name = None ∧
           ∃ c t, temp s !! name = Some (File c t) ∧ now - t > oneHour).
Proof.
  revert s. induction files as [|file files IH]; intros s; simpl.
  - unfold ret. intros [= <- <-]. auto.
  - unfold bind. destruct (temp s !! file) as [n|] eqn:Hn.
    + destruct (decide (now - node_mtimeMs n <= oneHour)) as [Hage|Hage].
      * rewrite (sweep_entry_fresh _ _ _ Hn Hage). apply IH.
      * destruct n as [c t|t]; simpl in Hage.
        -- rewrite (sweep_entry_stale_file _ _ _ _ Hn) by lia. intros Hrec.
           apply IH in Hrec as (Hb & Hc & Hl & Ht). simpl in *.
           split_and!; try done. intros name.
           destruct (decide (name = file)) as [->|Hne].
           ++ right. destruct (Ht file) as [Hsame|[Hgone _]].
              ** rewrite lookup_delete_eq in Hsame.
                 split; [done|]. exists c, t. split; [done|lia].
              ** split; [done|]. exists c, t. split; [done|lia].
           ++ destruct (Ht name) as [Hsame|[Hgone Hwas]].
              ** left. by rewrite lookup_delete_ne in Hsame.
              ** right. by rewrite lookup_delete_ne in Hwas.
        -- rewrite (sweep_entry_stale_dir _ _ _ Hn) by lia.
           intros [= <- <-]. auto.
    + rewrite (sweep_entry_absent _ _ Hn). intros [= <- <-]. auto.
Qed.

(** Over distinct names of entries none of which is a stale directory
    the loop runs to its end and leaves exactly the fresh ones. *)
Lemma sweep_loop_files files s :
  NoDup files →
  (∀ f, f ∈ files →
        ∃ n, temp s !! f = Some n ∧
             (now - node_mtimeMs n > oneHour → is_file n = true)) →
  ∃ s', for_of files (sweep_entry now) s = (Ok tt, s') ∧
        ∀ name, temp s' !! name =
                if decide (name ∈ files)
                then filter (fresh now) (temp s) !! name
                else temp s !! name.
Proof.
  revert s. induction files as [|file files IH]; intros s Hnd Hfiles; simpl.
  - exists s. split; [done|]. intros name.
    destruct (decide (name ∈ [])) as [Hin|_]; [by apply elem_of_nil in Hin|done].
  - apply NoDup_cons in Hnd as [Hnotin Hnd].
    destruct (Hfiles file) as (n & Hfile & Hreg); [apply elem_of_cons; by left|].
    unfold bind.
    destruct (decide (now - node_mtimeMs n <= oneHour)) as [Hage|Hage].
    + rewrite (sweep_entry_fresh _ _ _ Hfile) by done.
      destruct (IH s Hnd) as (s' & Hrun & Hlook).
      { intros f Hf. apply Hfiles, elem_of_cons. by right. }
      exists s'. split; [done|]. intros name. rewrite Hlook.
      destruct (decide (name = file)) as [->|Hne].
      * rewrite decide_False by done.
        rewrite decide_True by (apply elem_of_cons; by left).
        symmetry. rewrite Hfile. by apply map_lookup_filter_Some.
      * destruct (decide (name ∈ files)).
        -- rewrite decide_True; [done|]. apply elem_of_cons. by right.
        -- rewrite decide_False; [done|]. by intros [?|?]%elem_of_cons.
    + destruct n as [c t|t]; [|by (discriminate Hreg; lia)]. simpl in Hage.
      rewrite (sweep_entry_stale_file _ _ _ _ Hfile) by lia.
      destruct (IH (Server (delete file (temp s)) (backups s) (clock s) (console s)) Hnd)
        as (s' & Hrun & Hlook).
      { intros f Hf. simpl. rewrite lookup_delete_ne by (by intros <-).
        apply Hfiles, elem_of_cons. by right. }
      exists s'. split; [done|]. intros name. rewrite Hlook. simpl.
      destruct (decide (name = file)) as [->|Hne].
      * rewrite decide_False by done.
        rewrite decide_True by (apply elem_of_cons; by left).
        rewrite lookup_delete_eq. symmetry. apply map_lookup_filter_None.
        right. intros n Hn. rewrite Hfile in Hn. injection Hn as <-.
        unfold fresh. simpl. lia.
      * destruct (decide (name ∈ files)).
        -- rewrite decide_True by (apply elem_of_cons; by right).
           apply option_eq. intros n. rewrite !map_lookup_filter_Some.
           by rewrite lookup_delete_ne.
        -- rewrite decide_False by (by intros [?|?]%elem_of_cons).
           by rewrite lookup_delete_ne.
Qed.
End sweep.

Lemma readdir_NoDup d s : NoDup (readdir_names (get_dir d s)).
Proof.
  unfold readdir_names. rewrite merge_sort_Permutation. apply NoDup_fst_map_to_list.
Qed.

Lemma readdir_elem d s name :
  name ∈ readdir_names (get_dir d s) ↔ is_Some (get_dir d s !! name).
Proof.
  unfold readdir_names. rewrite merge_sort_Permutation, list_elem_of_fmap. split.
  - intros ([k n] & -> & Hin). apply elem_of_map_to_list in Hin. eauto.
  - intros [n Hn]. exists (name, n). split; [done|]. by apply elem_of_map_to_list.
Qed.

Lemma readdir_names_nil m : readdir_names m = [] → m = ∅.
Proof.
  unfold readdir_names. intros Hnil. apply map_to_list_empty_iff.
  apply (fmap_nil_inv fst), Permutation_nil_r.
  by rewrite <- Hnil, merge_sort_Permutation.
Qed.

Lemma readdir_sorted d s : StronglySorted String.le (readdir_names (get_dir d s)).
Proof. apply (StronglySorted_merge_sort _). Qed.

Lemma cleanup_run s r s1 :
  for_of (readdir_names (temp s)) (sweep_entry (clock s)) s = (r, s1) →
  cleanupTempFiles s =
  match r with
  | Ok _ => (Ok tt, s1)
  | Throw e => console_error "Error cleaning up temp files:" e s1
  end.
Proof.
  intros Hrun. unfold cleanupTempFiles, try_catch, bind, fs_readdir, Date_now. simpl.
  rewrite Hrun. by destruct r as [[]|e].
Qed.

(** ** Claims about the sweeper *)

(** C7.  A run of the sweeper never touches an entry whose age (current
    time minus last-modified time) is at most one hour.  Over a Temp Store
    of chunk files it ends without an error and leaves exactly these
    entries: every entry older than one hour is deleted.  In particular a
    chunk written at [T0] is gone after a sweep at [T0 + 2h], and a chunk
    written at [T0 + 1.9h] is still there. *)
Theorem sweep_deletes_stale_keeps_fresh (s : server) :
  ∃ s', cleanupTempFiles s = (Ok tt, s') ∧
        backups s' = backups s ∧
        (∀ name n, temp s !! name = Some n → clock s - node_mtimeMs n <= oneHour →
                   temp s' !! name = Some n) ∧
        (only_files (temp s) →
         temp s' = filter (fresh (clock s)) (temp s) ∧
         console s' = console s ∧
         (∀ name c T0,
             temp s !! name = Some (File c T0) → clock s = T0 + 2 * oneHour →
             temp s' !! name = None) ∧
         (∀ name c T0,
             temp s !! name = Some (File c (T0 + 6840000)) → clock s = T0 + 2 * oneHour →
             temp s' !! name = Some (File c (T0 + 6840000)))).
Proof.
  destruct (for_of (readdir_names (temp s)) (sweep_entry (clock s)) s) as [r s1] eqn:Hrun.
  pose proof (sweep_loop_frame _ _ _ _ _ Hrun) as (Hb & _ & Hc & Ht).
  exists (cleanupTempFiles s).2.
  assert (temp (cleanupTempFiles s).2 = temp s1 ∧ backups (cleanupTempFiles s).2 = backups s1
          ∧ cleanupTempFiles s = (Ok tt, (cleanupTempFiles s).2)) as (Htemp & Hbackups & Hres).
  { rewrite (cleanup_run _ _ _ Hrun). by destruct r as [[]|e]. }
  rewrite Htemp, Hbackups. split_and!; try done.
  - intros name n Hn Hage.
    destruct (Ht name) as [Hsame|(_ & c & t & Hwas & Hstale)]; [by rewrite Hsame|].
    rewrite Hn in Hwas. injection Hwas as ->. simpl in Hage. lia.
  - intros Hfiles.
    destruct (sweep_loop_files (clock s) (readdir_names (temp s)) s) as (s' & Hrun' & Hlook).
    { apply (readdir_NoDup tempDir). }
    { intros f [n Hn]%(readdir_elem tempDir). exists n. split; [done|].
      intros _. by apply (Hfiles f). }
    rewrite Hrun in Hrun'. injection Hrun' as -> <-.
    assert (temp s1 = filter (fresh (clock s)) (temp s)) as Heq.
    { apply map_eq. intros name. rewrite Hlook.
      destruct (decide (name ∈ readdir_names (temp s))) as [|Hnotin]; [done|].
      destruct (temp s !! name) as [n|] eqn:Hn.
      - exfalso. apply Hnotin, (readdir_elem tempDir). by exists n.
      - symmetry. apply map_lookup_filter_None. left. done. }
    split_and!; try done.
    + rewrite (cleanup_run _ _ _ Hrun). done.
    + intros name c T0 Hn Hclock. rewrite Heq. apply map_lookup_filter_None.
      right. intros n Hn'. rewrite Hn in Hn'. injection Hn' as <-.
      unfold fresh, oneHour in *. simpl. lia.
    + intros name c T0 Hn Hclock. rewrite Heq. apply map_lookup_filter_Some.
      split; [done|]. unfold fresh, oneHour in *. simpl. lia.
Qed.

Lemma sweep_deletes_stale_keeps_fresh_witness :
  ∃ s', cleanupTempFiles two_chunks = (Ok tt, s') ∧
        temp s' !! "chunk_0_0" = None ∧
        temp s' !! "chunk_0_1" = Some (File "new" 6840000).
Proof.
  destruct (sweep_deletes_stale_keeps_fresh two_chunks) as (s' & Hrun & _ & _ & Hfiles).
  destruct Hfiles as (_ & _ & Hold & Hnew).
  { apply (bool_decide_unpack _). by vm_compute. }
  exists s'. split; [done|]. split.
  - by apply (Hold "chunk_0_0" "old" 0).
  - by apply (Hnew "chunk_0_1" "new" 0).
Defined.

Lemma cleanup_temp s r s1 :
  for_of (readdir_names (temp s)) (sweep_entry (clock s)) s = (r, s1) →
  temp (cleanupTempFiles s).2 = temp s1.
Proof. intros Hrun. rewrite (cleanup_run _ _ _ Hrun). by destruct r. Qed.

(** C10.  The staleness test is strict.  An entry whose age is exactly
    3,600,000 ms is still in the Temp Store after the run, and an entry that
    the run has removed was strictly older than that.  Both hold whatever
    else the Temp Store contains and however the run ends. *)
Theorem sweep_threshold_is_strict (s : server) (name : string) (n : node) :
  temp s !! name = Some n →
  (clock s - node_mtimeMs n = 3600000 →
   temp (cleanupTempFiles s).2 !! name = Some n) ∧
  (temp (cleanupTempFiles s).2 !! name = None →
   clock s - node_mtimeMs n > 3600000).
Proof.
  intros Hn.
  destruct (for_of (readdir_names (temp s)) (sweep_entry (clock s)) s) as [r s1] eqn:Hrun.
  rewrite (cleanup_temp _ _ _ Hrun).
  apply sweep_loop_frame in Hrun as (_ & _ & _ & Ht).
  destruct (Ht name) as [Hsame|(Hgone & c & t & Hwas & Hage)].
  - rewrite Hsame, Hn. split; [done|discriminate].
  - rewrite Hn in Hwas. injection Hwas as ->. simpl. unfold oneHour in Hage.
    split; [lia|intros _; lia].
Qed.

Lemma sweep_threshold_is_strict_witness :
  temp (cleanupTempFiles hour_old_chunk).2 !! "chunk_0_0" = Some (File "x" 0).
Proof.
  apply (sweep_threshold_is_strict hour_old_chunk "chunk_0_0" (File "x" 0)).
  - reflexivity.
  - reflexivity.
Defined.

(** The run ends at the first entry of the listing that is a directory
    older than one hour: the entries listed before it have been swept, all
    others are as they were. *)
Lemma sweep_stops_at (s : server) (pre post : list string) (f : string) (t : Z) :
  readdir_names (temp s) = pre ++ f :: post →
  (∀ g t', g ∈ pre → temp s !! g = Some (Directory t') → clock s - t' <= oneHour) →
  temp s !! f = Some (Directory t) →
  clock s - t > oneHour →
  ∃ s', cleanupTempFiles s = (Ok tt, s') ∧
        console s' = console s ++ [LogLine "Error cleaning up temp files:" (EISDIR (tempDir, f))] ∧
        backups s' = backups s ∧
        ∀ g, temp s' !! g = if decide (g ∈ pre)
                            then filter (fresh (clock s)) (temp s) !! g
                            else temp s !! g.
Proof.
  intros Hlist Hpre Hf Hage.
  pose proof (readdir_NoDup tempDir s) as Hnd. simpl in Hnd. rewrite Hlist in Hnd.
  apply NoDup_app in Hnd as (Hnd_pre & Hdisj & _).
  destruct (sweep_loop_files (clock s) pre s Hnd_pre) as (s1 & Hrun & Hlook).
  { intros g Hg.
    assert (is_Some (temp s !! g)) as [n Hn].
    { apply (readdir_elem tempDir). simpl. rewrite Hlist. apply elem_of_app. by left. }
    exists n. split; [done|]. intros Hstale. destruct n as [c t'|t']; [done|].
    specialize (Hpre g t' Hg Hn). simpl in Hstale. lia. }
  assert (temp s1 !! f = Some (Directory t)) as Hf1.
  { rewrite Hlook. rewrite decide_False; [done|].
    intros Hin. apply (Hdisj f Hin), elem_of_cons. by left. }
  assert (for_of (readdir_names (temp s)) (sweep_entry (clock s)) s
          = (Throw (EISDIR (tempDir, f)), s1)) as Hall.
  { rewrite Hlist, for_of_app. unfold bind at 1. rewrite Hrun. simpl.
    unfold bind. by rewrite (sweep_entry_stale_dir _ _ _ _ Hf1). }
  exists (Server (temp s1) (backups s1) (clock s1)
                 (console s1 ++ [LogLine "Error cleaning up temp files:" (EISDIR (tempDir, f))])).
  rewrite (cleanup_run _ _ _ Hall).
  apply sweep_loop_frame in Hrun as (Hb & _ & Hc & _). simpl.
  split_and!; try done. by rewrite Hc.
Qed.

(** C8, as stated, fails: the listing of [blocked_sweep] is [archive],
    [chunk_5_0], [chunk_5_1]; removing [archive] throws, the run ends there
    with one line on the console, and both chunks, although two hours old,
    are still in the Temp Store. *)
Lemma sweep_failure_skips_rest :
  readdir_names (temp blocked_sweep) = ["archive"; "chunk_5_0"; "chunk_5_1"] ∧
  temp blocked_sweep !! "chunk_5_0" = Some (File "a" 0) ∧
  clock blocked_sweep - 0 > oneHour ∧
  ∃ s', cleanupTempFiles blocked_sweep = (Ok tt, s') ∧
        console s' = [LogLine "Error cleaning up temp files:" (EISDIR (tempDir, "archive"))] ∧
        temp s' !! "chunk_5_0" = Some (File "a" 0) ∧
        temp s' !! "chunk_5_1" = Some (File "b" 0).
Proof.
  split; [by vm_compute|]. split; [by vm_compute|]. split; [by vm_compute|].
  eexists. split; [by vm_compute|]. by vm_compute.
Qed.

(** C8, amended.  The entries are visited in the order of their names.
    When the first entry that cannot be removed is reached (the first
    directory older than one hour), the error is written to the console, the
    sweeper returns normally, and the run ends there: the entries with
    smaller names have been swept, the failing entry and every entry with a
    greater name are left as they were. *)
Theorem sweep_failure_ends_run (s : server) (f : string) (t : Z) :
  temp s !! f = Some (Directory t) →
  clock s - t > oneHour →
  (∀ g t', String.le g f → temp s !! g = Some (Directory t') →
           clock s - t' > oneHour → g = f) →
  ∃ s', cleanupTempFiles s = (Ok tt, s') ∧
        console s' = console s ++ [LogLine "Error cleaning up temp files:" (EISDIR (tempDir, f))] ∧
        backups s' = backups s ∧
        (∀ g, String.le g f → g ≠ f →
              temp s' !! g = filter (fresh (clock s)) (temp s) !! g) ∧
        (∀ g, String.le f g → temp s' !! g = temp s !! g).
Proof.
  intros Hf Hage Hfirst.
  assert (f ∈ readdir_names (temp s)) as Hin.
  { apply (readdir_elem tempDir). by eexists. }
  apply list_elem_of_split in Hin as (pre & post & Hlist).
  pose proof (readdir_NoDup tempDir s) as Hnd.
  pose proof (readdir_sorted tempDir s) as Hsorted.
  simpl in Hnd, Hsorted. rewrite Hlist in Hnd, Hsorted.
  assert (∀ g, g ∈ pre → String.le g f ∧ g ≠ f) as Hbefore.
  { intros g Hg. split.
    - eapply StronglySorted_app_1_elem_of; [apply Hsorted|done|]. apply elem_of_cons. by left.
    - intros ->. apply NoDup_app in Hnd as (_ & Hdisj & _).
      apply (Hdisj f Hg), elem_of_cons. by left. }
  assert (∀ g, g ∈ post → String.le f g) as Hafter.
  { intros g Hg. apply StronglySorted_app_1_r, StronglySorted_cons in Hsorted as [Hall _].
    rewrite Forall_forall in Hall. by apply Hall. }
  destruct (sweep_stops_at s pre post f t Hlist) as (s' & Hrun & Hconsole & Hb & Hlook);
    [|done|done|].
  { intros g t' Hg Hdir. destruct (Hbefore g Hg) as [Hle Hne].
    destruct (decide (clock s - t' <= oneHour)) as [|Hstale]; [done|].
    destruct Hne. apply (Hfirst g t'); [done|done|lia]. }
  exists s'. split_and!; try done.
  - intros g Hle Hne. rewrite Hlook. destruct (decide (g ∈ pre)) as [|Hnotin]; [done|].
    destruct (temp s !! g) as [n|] eqn:Hg.
    + exfalso. assert (g ∈ pre ++ f :: post) as Hg'.
      { rewrite <- Hlist. apply (readdir_elem tempDir). by eexists. }
      apply elem_of_app in Hg' as [?|Hg']; [done|].
      apply elem_of_cons in Hg' as [?|Hg']; [done|].
      apply Hne. apply (anti_symm String.le); [done|by apply Hafter].
    + symmetry. apply map_lookup_filter_None. by left.
  - intros g Hle. rewrite Hlook. rewrite decide_False; [done|].
    intros Hg. destruct (Hbefore g Hg) as [Hle' Hne].
    apply Hne. by apply (anti_symm String.le).
Qed.

Lemma sweep_failure_ends_run_witness :
  ∃ s', cleanupTempFiles blocked_sweep = (Ok tt, s') ∧
        console s' = console blocked_sweep
                     ++ [LogLine "Error cleaning up temp files:" (EISDIR (tempDir, "archive"))] ∧
        backups s' = backups blocked_sweep ∧
        (∀ g, String.le g "archive" → g ≠ "archive" →
              temp s' !! g = filter (fresh (clock blocked_sweep)) (temp blocked_sweep) !! g) ∧
        (∀ g, String.le "archive" g → temp s' !! g = temp blocked_sweep !! g).
Proof.
  apply (sweep_failure_ends_run blocked_sweep "archive" 0).
  - by vm_compute.
  - by vm_compute.
  - intros g t' _ Hg _. unfold blocked_sweep in Hg. simpl in Hg.
    apply lookup_insert_Some in Hg as [[<- _]|[_ Hg]]; [done|].
    apply lookup_insert_Some in Hg as [[_ ?]|[_ Hg]]; [done|].
    apply lookup_insert_Some in Hg as [[_ ?]|[_ Hg]]; [done|].
    by rewrite lookup_empty in Hg.
Defined.

(** ** The combine handler *)







(** However the loop ends, it leaves the Backup Store, the clock and the
    console alone, and in the Temp Store it only removes chunks of the list. *)
Lemma combine_chunks_frame ids : ∀ acc s r s',
  combine_chunks ids acc s = (r, s') →
  backups s' = backups s ∧ clock s' = clock s ∧ console s' = console s ∧
  ∀ id, temp s' !! id = temp s !! id ∨ (temp s' !! id = None ∧ id ∈ ids).
Proof.
  induction ids as [|id0 ids IH]; intros acc s r s'; simpl.
  - unfold ret. intros [= <- <-]. auto.
  - unfold bind, fs_readFile, fs_unlink. simpl.
    destruct (temp s !! id0) as [[c t|t]|] eqn:Hid; simpl;
      try (intros [= <- <-]; by auto).
    rewrite Hid. intros Hrest. apply IH in Hrest as (Hb & Hc & Hl & Ht). simpl in *.
    split_and!; try done. intros id. destruct (decide (id = id0)) as [->|Hne].
    + right. split; [|apply elem_of_cons; by left].
      destruct (Ht id0) as [Hsame|[Hgone _]]; [|done].
      by rewrite lookup_delete_eq in Hsame.
    + destruct (Ht id) as [Hsame|[Hgone Hin]].
      * left. by rewrite lookup_delete_ne in Hsame.
      * right. split; [done|]. apply elem_of_cons. by right.
Qed.



(** C6.  Combining an empty list of chunk ids fails on parsing the empty
    text: the answer is the failure envelope, the [SyntaxError] goes to the
    console, and neither store changes; no backup is written. *)
Theorem combine_empty_list_fails (ts : Z) (s : server) :
  JSON_parse (concat_text []) = None ∧
  post_backup_combine (CombineBody [] ts) s
  = (Ok (Response 500 (failure "Failed to combine chunks")),
     Server (temp s) (backups s) (clock s)
            (console s ++ [LogLine "Error combining chunks:" SyntaxError])).
Proof. split; reflexivity. Qed.

(** ** The chunk handler *)

Lemma post_backup_chunk_run (req : chunk_body) (s : server) :
  let id := chunk_id (timestamp req) (index req) in
  post_backup_chunk req s =
  match temp s !! id with
  | Some (Directory _) =>
      (Ok (Response 500 (failure "Failed to save chunk")),
       Server (temp s) (backups s) (clock s)
              (console s ++ [LogLine "Error saving chunk:" (EISDIR (tempDir, id))]))
  | _ =>
      (Ok (Response 200 (Envelope true None (Some id) None)),
       Server (<[id := File (chunk req) (clock s)]> (temp s)) (backups s) (clock s) (console s))
  end.
Proof.
  unfold post_backup_chunk, try_catch, bind, fs_writeFile. simpl.
  by destruct (temp s !! _) as [[c t|t]|].
Qed.

(** C9.  Two chunk requests with the same timestamp and index, whatever
    their chunk and total fields, get the same answer, hence the same
    chunkId, which is computed from timestamp and index alone; the requests
    succeed unless a directory stands at that name, and after the second
    request the stored chunk holds the second request's content. *)
Theorem chunk_id_ignores_chunk_and_total (r1 r2 : chunk_body) (s : server) :
  timestamp r1 = timestamp r2 →
  index r1 = index r2 →
  ∃ res s1 s2,
    post_backup_chunk r1 s = (Ok res, s1) ∧
    (post_backup_chunk r2 s).1 = Ok res ∧
    post_backup_chunk r2 s1 = (Ok res, s2) ∧
    ((∀ t, temp s !! chunk_id (timestamp r1) (index r1) ≠ Some (Directory t)) →
     res = Response 200 (Envelope true None (Some (chunk_id (timestamp r1) (index r1))) None) ∧
     temp s1 !! chunk_id (timestamp r1) (index r1) = Some (File (chunk r1) (clock s)) ∧
     temp s2 !! chunk_id (timestamp r1) (index r1) = Some (File (chunk r2) (clock s))).
Proof.
  intros Hts Hidx.
  rewrite (post_backup_chunk_run r1 s), (post_backup_chunk_run r2 s). simpl.
  rewrite <- Hts, <- Hidx.
  destruct (temp s !! chunk_id (timestamp r1) (index r1)) as [[c t|t]|] eqn:Hlook.
  - do 3 eexists. do 2 (split; [reflexivity|]).
    rewrite post_backup_chunk_run. simpl. rewrite <- Hts, <- Hidx, lookup_insert_eq.
    split; [reflexivity|]. intros _. simpl. by rewrite !lookup_insert_eq.
  - do 3 eexists. do 2 (split; [reflexivity|]).
    rewrite post_backup_chunk_run. simpl. rewrite <- Hts, <- Hidx, Hlook.
    split; [reflexivity|]. intros Hno. by destruct (Hno t).
  - do 3 eexists. do 2 (split; [reflexivity|]).
    rewrite post_backup_chunk_run. simpl. rewrite <- Hts, <- Hidx, lookup_insert_eq.
    split; [reflexivity|]. intros _. simpl. by rewrite !lookup_insert_eq.
Qed.

Lemma chunk_id_ignores_chunk_and_total_witness :
  ∃ res s1 s2,
    post_backup_chunk (ChunkBody "first" 0 2 5) two_uploads = (Ok res, s1) ∧
    (post_backup_chunk (ChunkBody "second" 0 7 5) two_uploads).1 = Ok res ∧
    post_backup_chunk (ChunkBody "second" 0 7 5) s1 = (Ok res, s2) ∧
    ((∀ t, temp two_uploads !! chunk_id 5 0 ≠ Some (Directory t)) →
     res = Response 200 (Envelope true None (Some (chunk_id 5 0)) None) ∧
     temp s1 !! chunk_id 5 0 = Some (File "first" (clock two_uploads)) ∧
     temp s2 !! chunk_id 5 0 = Some (File "second" (clock two_uploads))).
Proof.
  apply (chunk_id_ignores_chunk_and_total
           (ChunkBody "first" 0 2 5) (ChunkBody "second" 0 7 5) two_uploads);
    reflexivity.
Defined.

(** ** Retrieval of the latest backup *)

Lemma latest_of_None files :
  latest_of files = None ↔ ∀ f, f ∈ files → endsWith f ".json" = false.
Proof.
  unfold latest_of.
  set (l := List.filter _ files).
  assert (merge_sort String.le l ≡ₚ l) as Hperm by apply merge_sort_Permutation.
  split.
  - intros Hhead f Hf. destruct (endsWith f ".json") eqn:Hends; [|done].
    assert (f ∈ merge_sort String.le l) as Hin.
    { rewrite Hperm. apply list_elem_of_In, filter_In. by rewrite <- list_elem_of_In. }
    destruct (reverse (merge_sort String.le l)) as [|x r] eqn:Hrev; [|done].
    apply (f_equal reverse) in Hrev. rewrite reverse_involutive in Hrev.
    rewrite Hrev in Hin. by apply elem_of_nil in Hin.
  - intros Hnone.
    destruct (reverse (merge_sort String.le l)) as [|x r] eqn:Hrev; [done|].
    assert (x ∈ l) as Hin.
    { rewrite <- Hperm, <- (reverse_involutive (merge_sort _ _)), Hrev.
      rewrite reverse_cons. apply elem_of_app. right. by apply list_elem_of_singleton. }
    apply list_elem_of_In, filter_In in Hin as [Hin Hends].
    apply list_elem_of_In, Hnone in Hin. congruence.
Qed.

Lemma latest_of_Some files f :
  latest_of files = Some f →
  f ∈ files ∧ endsWith f ".json" = true ∧
  ∀ g, g ∈ files → endsWith g ".json" = true → String.le g f.
Proof.
  unfold latest_of.
  set (l := List.filter _ files).
  assert (merge_sort String.le l ≡ₚ l) as Hperm by apply merge_sort_Permutation.
  assert (StronglySorted String.le (merge_sort String.le l)) as Hsorted
    by apply (StronglySorted_merge_sort _).
  destruct (reverse (merge_sort String.le l)) as [|x r] eqn:Hrev; [done|].
  intros [= ->].
  apply (f_equal reverse) in Hrev. rewrite reverse_involutive, reverse_cons in Hrev.
  rewrite Hrev in Hperm, Hsorted.
  assert (f ∈ l) as Hin.
  { rewrite <- Hperm. apply elem_of_app. right. by apply list_elem_of_singleton. }
  apply list_elem_of_In, filter_In in Hin as [Hin Hends].
  split; [by apply list_elem_of_In|]. split; [done|].
  intros g Hg Hgends.
  assert (g ∈ reverse r ++ [f]) as Hgin.
  { rewrite Hperm. apply list_elem_of_In, filter_In. by rewrite <- list_elem_of_In. }
  apply elem_of_app in Hgin as [Hgin|Hgin].
  - eapply StronglySorted_app_1_elem_of; [apply Hsorted|done|].
    by apply list_elem_of_singleton.
  - apply list_elem_of_singleton in Hgin as ->. reflexivity.
Qed.

Lemma get_backup_empty s :
  backups s = ∅ →
  get_backup s = (Ok (Response 404 (failure "No backups found")), s).
Proof.
  intros Hempty. unfold get_backup, try_catch, bind, fs_readdir, readdir_names. simpl.
  by rewrite Hempty, map_to_list_empty.
Qed.

Lemma get_backup_nonempty s :
  backups s ≠ ∅ →
  get_backup s =
  match latest_of (readdir_names (backups s)) with
  | None => (Ok (Response 404 (failure "No backup files found")), s)
  | Some latestFile =>
      match backups s !! latestFile with
      | Some (File c _) =>
          match JSON_parse c with
          | Some v => (Ok (Response 200 (Envelope true None None (Some v))), s)
          | None =>
              (Ok (Response 500 (failure "Failed to load backup")),
               Server (temp s) (backups s) (clock s)
                      (console s ++ [LogLine "Error loading backup:" SyntaxError]))
          end
      | Some (Directory _) =>
          (Ok (Response 500 (failure "Failed to load backup")),
           Server (temp s) (backups s) (clock s)
                  (console s ++ [LogLine "Error loading backup:"
                                         (EISDIR (backupsDir, latestFile))]))
      | None =>
          (Ok (Response 500 (failure "Failed to load backup")),
           Server (temp s) (backups s) (clock s)
                  (console s ++ [LogLine "Error loading backup:"
                                         (ENOENT (backupsDir, latestFile))]))
      end
  end.
Proof.
  intros Hne. unfold get_backup, try_catch, bind, fs_readdir. simpl.
  destruct (readdir_names (backups s)) as [|file l] eqn:Hlist.
  { by apply readdir_names_nil in Hlist. }
  simpl length. simpl Nat.eqb. cbv iota.
  destruct (latest_of _) as [latestFile|]; [|done].
  unfold fs_readFile. simpl.
  destruct (backups s !! latestFile) as [[c t|t]|]; try done.
  unfold JSON_parse_io. by destruct (JSON_parse c).
Qed.




(** C5.  When the Backup Store is empty, or none of its names ends in
    '.json', the retrieval answers 404 with success = false; the stores and
    the console are as before, so nothing was thrown. *)
Theorem get_backup_not_found (s : server) :
  (∀ f, is_Some (backups s !! f) → endsWith f ".json" = false) →
  get_backup s
  = (Ok (Response 404
           (failure (if decide (backups s = ∅)
                     then "No backups found" else "No backup files found"))), s).
Proof.
  intros Hnone. destruct (decide (backups s = ∅)) as [Hempty|Hne].
  - by apply get_backup_empty.
  - rewrite (get_backup_nonempty _ Hne).
    destruct (latest_of _) as [latest|] eqn:Hlatest; [|done].
    apply latest_of_Some in Hlatest as (Hin & Hends & _).
    rewrite Hnone in Hends; [done|]. by apply (readdir_elem backupsDir).
Qed.

Lemma get_backup_not_found_witness :
  get_backup notes_only
  = (Ok (Response 404 (failure "No backup files found")), notes_only).
Proof.
  apply (get_backup_not_found notes_only).
  intros f [n Hn]. unfold notes_only in Hn. simpl in Hn.
  apply lookup_insert_Some in Hn as [[<- _]|[_ Hn]]; [reflexivity|].
  by rewrite lookup_empty in Hn.
Defined.

(** ** Serialization followed by parsing *)








(** *** String literals *)



(** *** Numbers *)









(** *** Arrays and objects *)












Section layout.
(** [value] parses every value of a list back from its serialization at
    indentation [ind]. *)
Variable value : string → option (json * string).
Variable ind ind0 : nat.
Variable rest : string.

Hypothesis value_skips : ∀ n s, value (String newline (spaces n) +:+ s) = value s.
Hypothesis value_space : ∀ s, value (String " " s) = value s.


End layout.










(** *** Enough fuel *)


Lemma length_sapp s t :
  String.length (s +:+ t) = (String.length s + String.length t)%nat.
Proof. induction s as [|c s IH]; [done|]. rewrite sapp_cons. simpl. by rewrite IH. Qed.





(** ** Saving a backup and retrieving the latest *)








(** * Further facts *)

(** ** Parsed documents *)





Section parsed.
Variable P : json → Prop.
Variable value : string → option (json * string).
Hypothesis value_P : ∀ s v r, value s = Some (v, r) → P v.


End parsed.



(** ** What each handler does to the state *)

Lemma post_backup_cases (D : json) (s : server) :
  post_backup D s =
  match Date_toISOString (clock s) with
  | None =>
      (Ok (Response 500 (failure "Failed to save backup")),
       Server (temp s) (backups s) (clock s)
              (console s ++ [LogLine "Error saving backup:" RangeError]))
  | Some iso =>
      match backups s !! backup_filename iso with
      | Some (Directory _) =>
          (Ok (Response 500 (failure "Failed to save backup")),
           Server (temp s) (backups s) (clock s)
                  (console s ++ [LogLine "Error saving backup:"
                                         (EISDIR (backupsDir, backup_filename iso))]))
      | _ =>
          (Ok (Response 200 (Envelope true (Some "Backup saved successfully") None None)),
           Server (temp s)
                  (<[backup_filename iso := File (JSON_stringify D) (clock s)]> (backups s))
                  (clock s) (console s))
      end
  end.
Proof.
  unfold post_backup, try_catch, bind, Date_now, Date_toISOString_io.
  destruct (Date_toISOString (clock s)) as [iso|]; [|done].
  unfold ret at 1. unfold fs_writeFile. simpl.
  by destruct (backups s !! _) as [[c t|t]|].
Qed.

Lemma post_backup_combine_cases (req : combine_body) (s : server) :
  ∃ r s1,
    combine_chunks (chunkIds req) EmptyString s = (r, s1) ∧
    let failed e :=
      (Ok (Response 500 (failure "Failed to combine chunks")),
       Server (temp s1) (backups s1) (clock s1)
              (console s1 ++ [LogLine "Error combining chunks:" e])) in
    post_backup_combine req s =
    match r with
    | Throw e => failed e
    | Ok text =>
        match JSON_parse text with
        | None => failed SyntaxError
        | Some v =>
            match Date_toISOString (combine_timestamp req) with
            | None => failed RangeError
            | Some iso =>
                match backups s1 !! backup_filename iso with
                | Some (Directory _) => failed (EISDIR (backupsDir, backup_filename iso))
                | _ =>
                    (Ok (Response 200
                           (Envelope true (Some "Backup saved successfully") None None)),
                     Server (temp s1)
                            (<[backup_filename iso := File (JSON_stringify v) (clock s1)]>
                               (backups s1))
                            (clock s1) (console s1))
                end
            end
        end
    end.
Proof.
  destruct (combine_chunks (chunkIds req) EmptyString s) as [r s1] eqn:Hrun.
  exists r, s1. split; [done|]. cbv zeta.
  unfold post_backup_combine, try_catch, bind. rewrite Hrun.
  destruct r as [text|e]; [|done].
  unfold JSON_parse_io. destruct (JSON_parse text) as [v|]; [|done].
  unfold ret at 1. unfold Date_toISOString_io.
  destruct (Date_toISOString _) as [iso|]; [|done].
  unfold ret at 1. unfold fs_writeFile. simpl.
  by destruct (backups s1 !! _) as [[c t|t]|].
Qed.

Lemma get_backup_cases (s : server) :
  ∃ res, (get_backup s).1 = Ok res ∧
         temp (get_backup s).2 = temp s ∧ backups (get_backup s).2 = backups s ∧
         clock (get_backup s).2 = clock s ∧
         (status res = 200 ∧ success (body res) = true ∧ (get_backup s).2 = s ∨
          status res = 404 ∧ success (body res) = false ∧ (get_backup s).2 = s ∨
          status res = 500 ∧ success (body res) = false).
Proof.
  destruct (decide (backups s = ∅)) as [Hempty|Hne].
  - rewrite (get_backup_empty _ Hempty). eexists. split; [done|]. simpl. auto 10.
  - rewrite (get_backup_nonempty _ Hne).
    destruct (latest_of _) as [latest|]; [|eexists; split; [done|]; simpl; auto 10].
    destruct (backups s !! latest) as [[c t|t]|];
      [destruct (JSON_parse c)|..]; eexists; (split; [done|]); simpl; auto 10.
Qed.

Lemma cleanup_cases (s : server) :
  (cleanupTempFiles s).1 = Ok tt ∧
  backups (cleanupTempFiles s).2 = backups s ∧
  clock (cleanupTempFiles s).2 = clock s ∧
  ∀ name, temp (cleanupTempFiles s).2 !! name = temp s !! name ∨
          (temp (cleanupTempFiles s).2 !! name = None ∧
           ∃ c t, temp s !! name = Some (File c t) ∧ clock s - t > oneHour).
Proof.
  destruct (for_of (readdir_names (temp s)) (sweep_entry (clock s)) s) as [r s1] eqn:Hrun.
  pose proof (sweep_loop_frame _ _ _ _ _ Hrun) as (Hb & Hc & _ & Ht).
  rewrite (cleanup_run _ _ _ Hrun). by destruct r as [[]|e].
Qed.





(** The state a request leaves behind is the state its handler leaves. *)
Lemma serve_state (r : request) (s : server) :
  (serve r s).2 =
  match r with
  | PostChunk req => (post_backup_chunk req s).2
  | PostCombine req => (post_backup_combine req s).2
  | PostBackup D => (post_backup D s).2
  | GetBackup => (get_backup s).2
  | Cleanup => (cleanupTempFiles s).2
  | Elapse ms => Server (temp s) (backups s) (clock s + Z.of_N ms) (console s)
  end.
Proof.
  destruct r as [req|req|D| | |ms]; simpl; unfold bind; try done.
  - by destruct (post_backup_chunk req s) as [[res|e] s'].
  - by destruct (post_backup_combine req s) as [[res|e] s'].
  - by destruct (post_backup D s) as [[res|e] s'].
  - by destruct (get_backup s) as [[res|e] s'].
  - by destruct (cleanupTempFiles s) as [[[]|e] s'].
Qed.

Lemma serve_all_snoc rs r s :
  serve_all (rs ++ [r]) s = (serve r (serve_all rs s)).2.
Proof. unfold serve_all. by rewrite fold_left_app. Qed.

(** ** Properties of the routes *)


(** X2.  The retrieval reads only: it never changes the Temp Store, the
    Backup Store or the clock, and unless it answers 500 it leaves the
    console as it was too. *)
Theorem get_backup_reads_only (s : server) :
  temp (get_backup s).2 = temp s ∧
  backups (get_backup s).2 = backups s ∧
  clock (get_backup s).2 = clock s ∧
  ∀ res, (get_backup s).1 = Ok res → status res ≠ 500 → (get_backup s).2 = s.
Proof.
  destruct (get_backup_cases s) as (res & Hres & Ht & Hb & Hc & Hcases).
  split_and!; try done. intros res' Hres' Hstatus.
  rewrite Hres in Hres'. injection Hres' as <-.
  destruct Hcases as [(_ & _ & ?)|[(_ & _ & ?)|(? & _)]]; done.
Qed.

(** ** Invariants of the stores *)


Lemma serve_temp (r : request) (s : server) (name : string) :
  temp (serve r s).2 !! name = temp s !! name ∨
  temp (serve r s).2 !! name = None ∨
  ∃ c, temp (serve r s).2 !! name = Some (File c (clock s)).
Proof.
  rewrite serve_state. destruct r as [req|req|D| | |ms]; simpl.
  - rewrite post_backup_chunk_run. cbv zeta.
    destruct (temp s !! chunk_id _ _) as [[c t|t]|]; simpl; try (by left);
      (destruct (decide (chunk_id (timestamp req) (index req) = name)) as [->|Hne];
       [right; right; exists (chunk req); by rewrite lookup_insert_eq
       |left; by rewrite lookup_insert_ne]).
  - destruct (post_backup_combine_cases req s) as (r & s1 & Hrun & ->).
    apply combine_chunks_frame in Hrun as (_ & _ & _ & Ht).
    assert (temp s1 !! name = temp s !! name ∨ temp s1 !! name = None) as Hs1.
    { destruct (Ht name) as [?|[? _]]; auto. }
    destruct r as [text|e]; [|tauto].
    destruct (JSON_parse text); [|tauto].
    destruct (Date_toISOString _); [|tauto].
    destruct (backups s1 !! _) as [[c t|t]|]; simpl; tauto.
  - left. rewrite post_backup_cases.
    destruct (Date_toISOString _) as [iso|]; [|done].
    by destruct (backups s !! _) as [[c t|t]|].
  - left. by destruct (get_backup_cases s) as (_ & _ & -> & _).
  - destruct (cleanup_cases s) as (_ & _ & _ & Ht).
    destruct (Ht name) as [?|[? _]]; auto.
  - by left.
Qed.

Lemma serve_only_files (r : request) (s : server) :
  only_files (temp s) → only_files (temp (serve r s).2).
Proof.
  intros Hfiles name n Hn.
  destruct (serve_temp r s name) as [Hsame|[Hnone|[c Hnew]]].
  - rewrite Hsame in Hn. by apply (Hfiles name).
  - by rewrite Hnone in Hn.
  - rewrite Hnew in Hn. by injection Hn as <-.
Qed.


Lemma serve_all_cons r rs s : serve_all (r :: rs) s = serve_all rs (serve r s).2.
Proof. reflexivity. Qed.

Lemma serve_all_only_files rs : ∀ s,
  only_files (temp s) → only_files (temp (serve_all rs s)).
Proof.
  induction rs as [|r rs IH]; intros s Hfiles; [done|].
  rewrite serve_all_cons. by apply IH, serve_only_files.
Qed.






(** ** The sweeper on a store of chunk files *)

Lemma cleanup_only_files (s : server) :
  only_files (temp s) →
  cleanupTempFiles s
  = (Ok tt, Server (filter (fresh (clock s)) (temp s)) (backups s) (clock s) (console s)).
Proof.
  intros Hfiles.
  destruct (sweep_loop_files (clock s) (readdir_names (temp s)) s) as (s' & Hrun & Hlook).
  { apply (readdir_NoDup tempDir). }
  { intros f [n Hn]%(readdir_elem tempDir). exists n. split; [done|].
    intros _. by apply (Hfiles f). }
  rewrite (cleanup_run _ _ _ Hrun).
  apply sweep_loop_frame in Hrun as (Hb & Hc & Hl & _).
  f_equal. destruct s' as [t b c l]. simpl in *. subst b c l. f_equal.
  apply map_eq. intros name. rewrite Hlook.
  destruct (decide (name ∈ readdir_names (temp s))) as [|Hnotin]; [done|].
  destruct (temp s !! name) as [n|] eqn:Hn.
  - exfalso. apply Hnotin, (readdir_elem tempDir). by exists n.
  - symmetry. apply map_lookup_filter_None. by left.
Qed.

Lemma only_files_filter (P : string * node → Prop) `{!∀ x, Decision (P x)} m :
  only_files m → only_files (filter P m).
Proof. intros Hfiles name n [Hn _]%map_lookup_filter_Some. by apply (Hfiles name). Qed.

(** X5.  On a server whose Temp Store held only files at start-up (it is
    empty then), whatever requests have arrived since, a run of the sweeper
    meets no error: it writes nothing to the console and leaves exactly the
    entries that are at most one hour old. *)
Theorem sweeper_never_fails (rs : list request) (s0 : server) :
  only_files (temp s0) →
  let s := serve_all rs s0 in
  cleanupTempFiles s
  = (Ok tt, Server (filter (fresh (clock s)) (temp s)) (backups s) (clock s) (console s)).
Proof. intros Hfiles s. by apply cleanup_only_files, serve_all_only_files. Qed.

Lemma sweeper_never_fails_witness :
  let s := serve_all [PostChunk (ChunkBody "[1" 0 2 7); Elapse 3600001;
                      PostChunk (ChunkBody "]" 1 2 7)] (started 1700000000000) in
  cleanupTempFiles s
  = (Ok tt, Server (filter (fresh (clock s)) (temp s)) (backups s) (clock s) (console s)).
Proof.
  apply (sweeper_never_fails _ (started 1700000000000)).
  intros name n Hn. unfold started in Hn. simpl in Hn. by rewrite lookup_empty in Hn.
Defined.

(** X6.  Sweeping twice in a row is sweeping once: over a Temp Store of
    chunk files a second run at the same time changes nothing. *)
Theorem sweep_twice (s : server) :
  only_files (temp s) →
  (cleanupTempFiles (cleanupTempFiles s).2).2 = (cleanupTempFiles s).2.
Proof.
  intros Hfiles. rewrite (cleanup_only_files s Hfiles). simpl.
  rewrite cleanup_only_files by (by apply only_files_filter). simpl.
  f_equal. apply map_eq. intros name. apply option_eq. intros n.
  rewrite !map_lookup_filter_Some. tauto.
Qed.

Lemma sweep_twice_witness :
  (cleanupTempFiles (cleanupTempFiles two_chunks).2).2 = (cleanupTempFiles two_chunks).2.
Proof.
  apply (sweep_twice two_chunks). apply (bool_decide_unpack _). by vm_compute.
Defined.

(** X7.  With the sweeper on its one-hour timer, a chunk uploaded between
    two runs survives the next run, whatever was left of the period, and is
    removed by the run after it: it is kept for more than one hour and at
    most two. *)
Theorem chunk_outlives_one_run (req : chunk_body) (s : server) (d1 d2 : N) :
  only_files (temp s) →
  (d1 + d2 = interval)%N →
  (0 < d2)%N →
  let id := chunk_id (timestamp req) (index req) in
  let s1 := serve_all [Elapse d1; PostChunk req; Elapse d2; Cleanup] s in
  let s2 := serve_all [Elapse interval; Cleanup] s1 in
  temp s1 !! id = Some (File (chunk req) (clock s + Z.of_N d1)) ∧
  clock s1 = clock s + Z.of_N interval ∧
  temp s2 !! id = None ∧
  clock s2 = clock s + 2 * Z.of_N interval.
Proof.
  intros Hfiles Hsum Hd2 id s1 s2.
  assert (Z.of_N interval = 3600000) as Hint by reflexivity.
  assert (Z.of_N d1 + Z.of_N d2 = 3600000) as HsumZ by lia.
  rewrite !Hint. clear Hsum.
  set (sa := Server (temp s) (backups s) (clock s + Z.of_N d1) (console s)).
  assert (post_backup_chunk req sa
          = (Ok (Response 200 (Envelope true None (Some id) None)),
             Server (<[id := File (chunk req) (clock sa)]> (temp sa))
                    (backups sa) (clock sa) (console sa))) as Hpost.
  { rewrite post_backup_chunk_run. cbv zeta. fold id.
    destruct (temp sa !! id) as [[c t|t]|] eqn:Hid; try done.
    by pose proof (Hfiles id _ Hid). }
  set (sb := Server (<[id := File (chunk req) (clock sa)]> (temp sa))
                    (backups sa) (clock sa + Z.of_N d2) (console sa)).
  assert (only_files (temp sb)) as Hsb.
  { intros name n Hn. simpl in Hn. apply lookup_insert_Some in Hn as [[_ <-]|[_ Hn]]; [done|].
    by apply (Hfiles name). }
  assert (s1 = (cleanupTempFiles sb).2) as Hs1.
  { unfold s1. rewrite !serve_all_cons, !serve_state. fold sa. by rewrite Hpost. }
  rewrite (cleanup_only_files sb Hsb) in Hs1. simpl in Hs1.
  assert (clock s1 = clock s + 3600000) as Hclock1.
  { rewrite Hs1. simpl. lia. }
  assert (temp s1 !! id = Some (File (chunk req) (clock s + Z.of_N d1))) as Hkept.
  { rewrite Hs1. simpl. apply map_lookup_filter_Some. split; [by rewrite lookup_insert_eq|].
    unfold fresh, oneHour. simpl. lia. }
  set (sc := Server (temp s1) (backups s1) (clock s1 + Z.of_N interval) (console s1)).
  assert (only_files (temp sc)) as Hsc.
  { simpl. rewrite Hs1. simpl. by apply only_files_filter. }
  assert (s2 = (cleanupTempFiles sc).2) as Hs2.
  { unfold s2. by rewrite !serve_all_cons, !serve_state. }
  rewrite (cleanup_only_files sc Hsc) in Hs2. simpl in Hs2.
  split_and!; try done.
  - rewrite Hs2. simpl. apply map_lookup_filter_None. right. intros n Hn.
    rewrite Hkept in Hn. injection Hn as <-.
    unfold fresh, oneHour. simpl. rewrite ?Hint, ?Hclock1. lia.
  - rewrite Hs2. simpl. rewrite ?Hint, ?Hclock1. lia.
Qed.

Lemma chunk_outlives_one_run_witness :
  let id := chunk_id 7 0 in
  let s1 := serve_all [Elapse 3599999; PostChunk (ChunkBody "[1]" 0 1 7); Elapse 1; Cleanup]
                      (started 1700000000000) in
  let s2 := serve_all [Elapse interval; Cleanup] s1 in
  temp s1 !! id = Some (File "[1]" (1700000000000 + Z.of_N 3599999)) ∧
  clock s1 = 1700000000000 + Z.of_N interval ∧
  temp s2 !! id = None ∧
  clock s2 = 1700000000000 + 2 * Z.of_N interval.
Proof.
  apply (chunk_outlives_one_run (ChunkBody "[1]" 0 1 7) (started 1700000000000) 3599999 1).
  - intros name n Hn. unfold started in Hn. simpl in Hn. by rewrite lookup_empty in Hn.
  - reflexivity.
  - reflexivity.
Defined.

(** ** Chunk ids *)







(** ** Combining *)






(** ** A chunked upload from start to end *)







(** ** The choice of the latest snapshot *)

(** X12.  Which snapshot is the latest does not depend on the order in
    which the directory is listed: listings that are permutations of one
    another give the same choice. *)
Theorem latest_of_any_order (files files' : list string) :
  files ≡ₚ files' → latest_of files = latest_of files'.
Proof.
  intros Hperm.
  destruct (latest_of files) as [f|] eqn:Hf, (latest_of files') as [f'|] eqn:Hf'.
  - apply latest_of_Some in Hf as (Hin & Hends & Hmax).
    apply latest_of_Some in Hf' as (Hin' & Hends' & Hmax'). f_equal.
    apply (anti_symm String.le).
    + apply Hmax'; [by rewrite <- Hperm|done].
    + apply Hmax; [by rewrite Hperm|done].
  - apply latest_of_Some in Hf as (Hin & Hends & _).
    rewrite latest_of_None in Hf'. rewrite Hf' in Hends; [done|by rewrite <- Hperm].
  - apply latest_of_Some in Hf' as (Hin' & Hends' & _).
    rewrite latest_of_None in Hf. rewrite Hf in Hends'; [done|by rewrite Hperm].
  - done.
Qed.

Lemma latest_of_any_order_witness :
  latest_of ["b.json"; "notes.txt"; "a.json"] = latest_of ["a.json"; "b.json"; "notes.txt"].
Proof.
  apply latest_of_any_order.
  change (["b.json"; "notes.txt"] ++ ["a.json"] ≡ₚ ["a.json"] ++ ["b.json"; "notes.txt"]).
  apply Permutation_app_comm.
Defined.



(** ** Names of snapshots and time *)

Lemma compare_sapp_same p : ∀ r1 r2,
  String.compare (p +:+ r1) (p +:+ r2) = String.compare r1 r2.
Proof.
  induction p as [|c p IH]; intros r1 r2; [done|].
  rewrite !sapp_cons. simpl.
  assert (Ascii.compare c c = Eq) as -> by (unfold Ascii.compare; apply N.compare_refl).
  apply IH.
Qed.

Lemma compare_sapp_eq_length a : ∀ b r1 r2,
  String.length a = String.length b →
  String.compare (a +:+ r1) (b +:+ r2)
  = match String.compare a b with
    | Eq => String.compare r1 r2
    | c => c
    end.
Proof.
  induction a as [|x a IH]; intros [|y b] r1 r2 Hlen; try done.
  rewrite !sapp_cons. simpl. destruct (Ascii.compare x y); try done.
  apply IH. simpl in Hlen. lia.
Qed.

Lemma length_pad0 w : ∀ n, String.length (pad0 w n) = w.
Proof.
  induction w as [|w IH]; intros n; [done|].
  simpl. rewrite length_sapp, IH. simpl. lia.
Qed.

Lemma compare_digit a b :
  0 <= a <= 9 → 0 <= b <= 9 →
  Ascii.compare (ascii_of_N (Z.to_N (48 + a))) (ascii_of_N (Z.to_N (48 + b))) = (a ?= b).
Proof.
  intros Ha Hb. unfold Ascii.compare.
  rewrite !N_ascii_embedding by lia.
  rewrite Z2N.inj_compare by lia.
  destruct (Z.compare_spec (48 + a) (48 + b)), (Z.compare_spec a b); try done; lia.
Qed.

Lemma compare_pad0 w : ∀ a b,
  0 <= a < 10 ^ Z.of_nat w → 0 <= b < 10 ^ Z.of_nat w →
  String.compare (pad0 w a) (pad0 w b) = (a ?= b).
Proof.
  induction w as [|w IH]; intros a b Ha Hb.
  - simpl in *. assert (a = 0) as -> by lia. assert (b = 0) as -> by lia. done.
  - rewrite Nat2Z.inj_succ, Z.pow_succ_r in Ha, Hb by lia.
    cbn [pad0]. rewrite compare_sapp_eq_length by (by rewrite !length_pad0).
    rewrite IH by (Z.div_mod_to_equations; lia).
    unfold str1. simpl String.compare.
    rewrite compare_digit by (Z.div_mod_to_equations; lia).
    destruct (Z.compare_spec (a / 10) (b / 10)), (Z.compare_spec (a mod 10) (b mod 10)),
      (Z.compare_spec a b); try done; Z.div_mod_to_equations; lia.
Qed.

Lemma civil_from_days_eq days :
  civil_from_days days
  = let doe := (days + 719468) mod 146097 in
    let mp := mp_of (doy_of doe) in
    let m := if mp <? 10 then mp + 3 else mp - 9 in
    (yoe_of doe + (days + 719468) / 146097 * 400 + (if m <=? 2 then 1 else 0),
     m, dom_of (doy_of doe)).
Proof. reflexivity. Qed.

Lemma yoe_bracket doe : 0 <= doe <= 146096 →
  0 <= yoe_of doe <= 399 ∧ 0 <= doy_of doe <= 365.
Proof. unfold doy_of, yoe_of. intros. Z.div_mod_to_equations. lia. Qed.

Lemma month_bracket doy : 0 <= doy <= 365 →
  0 <= mp_of doy <= 11 ∧ 1 <= dom_of doy <= 31.
Proof. unfold dom_of, mp_of. intros. Z.div_mod_to_equations. lia. Qed.

Lemma month_mono a b : 0 <= a < b → b <= 365 →
  32 * mp_of a + dom_of a < 32 * mp_of b + dom_of b.
Proof. unfold dom_of, mp_of. intros. Z.div_mod_to_equations. lia. Qed.

Lemma year_mono a b : 0 <= a < b → b <= 146096 →
  yoe_of a < yoe_of b ∨ (yoe_of a = yoe_of b ∧ doy_of a < doy_of b).
Proof. unfold doy_of, yoe_of. intros. Z.div_mod_to_equations. lia. Qed.

Lemma day_rank_civil days :
  let doe := (days + 719468) mod 146097 in
  let '(y, m, d) := civil_from_days days in
  384 * y + 32 * m + d
  = 153600 * ((days + 719468) / 146097) + 384 * yoe_of doe
    + 32 * mp_of (doy_of doe) + 96 + dom_of (doy_of doe)
  ∧ 1 <= m <= 12 ∧ 1 <= d <= 31.
Proof.
  rewrite civil_from_days_eq. cbv zeta.
  assert (0 <= (days + 719468) mod 146097 <= 146096) as Hdoe
    by (Z.div_mod_to_equations; lia).
  destruct (yoe_bracket _ Hdoe) as [_ Hdoy].
  destruct (month_bracket _ Hdoy) as [Hmp Hdom].
  revert Hmp Hdom.
  generalize (mp_of (doy_of ((days + 719468) mod 146097))),
             (dom_of (doy_of ((days + 719468) mod 146097))),
             (yoe_of ((days + 719468) mod 146097)),
             ((days + 719468) / 146097).
  intros mp dom yoe era Hmp Hdom.
  destruct (Z.ltb_spec mp 10).
  - destruct (Z.leb_spec (mp + 3) 2); lia.
  - destruct (Z.leb_spec (mp - 9) 2); lia.
Qed.

Lemma civil_from_days_mono days1 days2 :
  days1 < days2 →
  let '(y1, m1, d1) := civil_from_days days1 in
  let '(y2, m2, d2) := civil_from_days days2 in
  384 * y1 + 32 * m1 + d1 < 384 * y2 + 32 * m2 + d2.
Proof.
  intros Hlt.
  pose proof (day_rank_civil days1) as H1. pose proof (day_rank_civil days2) as H2.
  cbv zeta in H1, H2.
  destruct (civil_from_days days1) as [[y1 m1] d1], (civil_from_days days2) as [[y2 m2] d2].
  destruct H1 as (-> & _), H2 as (-> & _).
  set (z1 := days1 + 719468). set (z2 := days2 + 719468).
  assert (z1 < z2) as Hz by (unfold z1, z2; lia). clearbody z1 z2.
  assert (0 <= z1 mod 146097 <= 146096) as Hdoe1 by (Z.div_mod_to_equations; lia).
  assert (0 <= z2 mod 146097 <= 146096) as Hdoe2 by (Z.div_mod_to_equations; lia).
  assert (z1 / 146097 < z2 / 146097 ∨
          (z1 / 146097 = z2 / 146097 ∧ z1 mod 146097 < z2 mod 146097)) as Hera
    by (Z.div_mod_to_equations; lia).
  destruct (yoe_bracket _ Hdoe1) as [Hy1 Hdoy1], (yoe_bracket _ Hdoe2) as [Hy2 Hdoy2].
  destruct (month_bracket _ Hdoy1) as [Hmp1 Hdom1], (month_bracket _ Hdoy2) as [Hmp2 Hdom2].
  destruct Hera as [Hera|[Hera Hdoe]].
  - lia.
  - rewrite Hera.
    destruct (year_mono (z1 mod 146097) (z2 mod 146097)) as [Hyoe|[Hyoe Hdoy]]; [lia|lia| |].
    + lia.
    + rewrite Hyoe. pose proof (month_mono _ _ (conj (proj1 Hdoy1) Hdoy) (proj2 Hdoy2)). lia.
Qed.


Lemma replace_colon_dot_sapp a b :
  replace_colon_dot (a +:+ b) = replace_colon_dot a +:+ replace_colon_dot b.
Proof. induction a as [|c a IH]; [done|]. rewrite sapp_cons. simpl. by rewrite IH, sapp_cons. Qed.

Lemma replace_colon_dot_pad0 w : ∀ n, replace_colon_dot (pad0 w n) = pad0 w n.
Proof.
  induction w as [|w IH]; intros n; [done|].
  cbn [pad0]. rewrite replace_colon_dot_sapp, IH. f_equal.
  assert (0 <= n mod 10 <= 9) as Hd by (Z.div_mod_to_equations; lia).
  revert Hd. generalize (n mod 10). intros k Hk.
  assert (k = 0 ∨ k = 1 ∨ k = 2 ∨ k = 3 ∨ k = 4 ∨ k = 5 ∨ k = 6 ∨ k = 7 ∨ k = 8 ∨ k = 9)
    as Hcases by lia.
  repeat (destruct Hcases as [->|Hcases]; [reflexivity|]). by subst.
Qed.

Lemma plain_year_days t :
  firstPlainYear <= t <= lastPlainYear →
  let '(y, m, d) := civil_from_days (t / msPerDay) in
  0 <= y <= 9999 ∧ 1 <= m <= 12 ∧ 1 <= d <= 31.
Proof.
  unfold firstPlainYear, lastPlainYear, msPerDay. intros Ht.
  assert (-719529 < t / 86400000 < 2932897) as [Hlo Hhi] by (Z.div_mod_to_equations; lia).
  apply civil_from_days_mono in Hlo, Hhi.
  change (civil_from_days (-719529)) with (-1, 12, 31) in Hlo.
  change (civil_from_days 2932897) with (10000, 1, 1) in Hhi.
  pose proof (day_rank_civil (t / 86400000)) as Hrank. cbv zeta in Hrank.
  destruct (civil_from_days _) as [[y m] d]. lia.
Qed.

Lemma backup_filename_plain t :
  firstPlainYear <= t <= lastPlainYear →
  let '(y, m, d) := civil_from_days (t / msPerDay) in
  let ms := t mod msPerDay in
  ∃ iso, Date_toISOString t = Some iso ∧
         backup_filename iso
         = stamp_name y m d (ms / 3600000) (ms / 60000 mod 60) (ms / 1000 mod 60) (ms mod 1000).
Proof.
  intros Ht. pose proof (plain_year_days t Ht) as Hy.
  unfold Date_toISOString.
  assert ((- maxTime <=? t) && (t <=? maxTime) = true) as ->.
  { unfold firstPlainYear, lastPlainYear, maxTime in *.
    apply andb_true_intro. split; apply Z.leb_le; lia. }
  destruct (civil_from_days (t / msPerDay)) as [[y m] d]. cbv zeta.
  eexists. split; [reflexivity|].
  unfold year_string.
  assert ((0 <=? y) && (y <=? 9999) = true) as ->.
  { apply andb_true_intro. split; apply Z.leb_le; lia. }
  unfold backup_filename, stamp_name.
  rewrite !replace_colon_dot_sapp, !replace_colon_dot_pad0, !sapp_assoc. reflexivity.
Qed.

Lemma compare_field w a b sep r1 r2 :
  0 <= a < 10 ^ Z.of_nat w → 0 <= b < 10 ^ Z.of_nat w →
  String.compare (pad0 w a +:+ String sep r1) (pad0 w b +:+ String sep r2)
  = match a ?= b with
    | Eq => String.compare r1 r2
    | c => c
    end.
Proof.
  intros Ha Hb. rewrite compare_sapp_eq_length by (by rewrite !length_pad0).
  rewrite compare_pad0 by done. destruct (a ?= b); try done.
  simpl. assert (Ascii.compare sep sep = Eq) as -> by (unfold Ascii.compare; apply N.compare_refl).
  done.
Qed.

Lemma compare_stamp_name y1 m1 d1 h1 mi1 s1 ms1 y2 m2 d2 h2 mi2 s2 ms2 :
  0 <= y1 <= 9999 → 0 <= m1 <= 99 → 0 <= d1 <= 99 → 0 <= h1 <= 99 →
  0 <= mi1 <= 99 → 0 <= s1 <= 99 → 0 <= ms1 <= 999 →
  0 <= y2 <= 9999 → 0 <= m2 <= 99 → 0 <= d2 <= 99 → 0 <= h2 <= 99 →
  0 <= mi2 <= 99 → 0 <= s2 <= 99 → 0 <= ms2 <= 999 →
  String.compare (stamp_name y1 m1 d1 h1 mi1 s1 ms1) (stamp_name y2 m2 d2 h2 mi2 s2 ms2)
  = match y1 ?= y2 with Eq =>
    match m1 ?= m2 with Eq =>
    match d1 ?= d2 with Eq =>
    match h1 ?= h2 with Eq =>
    match mi1 ?= mi2 with Eq =>
    match s1 ?= s2 with Eq => ms1 ?= ms2
    | c => c end | c => c end | c => c end | c => c end | c => c end | c => c end.
Proof.
  intros. unfold stamp_name. rewrite compare_sapp_same.
  rewrite !compare_field by (simpl; lia).
  repeat (destruct (_ ?= _); try done).
Qed.

(** The names of snapshots follow time. *)
Lemma backup_filename_lt t1 t2 iso1 iso2 :
  firstPlainYear <= t1 → t1 < t2 → t2 <= lastPlainYear →
  Date_toISOString t1 = Some iso1 → Date_toISOString t2 = Some iso2 →
  String.compare (backup_filename iso1) (backup_filename iso2) = Lt.
Proof.
  intros Hlo Hlt Hhi Hiso1 Hiso2.
  pose proof (backup_filename_plain t1 ltac:(lia)) as H1.
  pose proof (backup_filename_plain t2 ltac:(lia)) as H2.
  pose proof (plain_year_days t1 ltac:(lia)) as Hb1.
  pose proof (plain_year_days t2 ltac:(lia)) as Hb2.
  assert (t1 / msPerDay < t2 / msPerDay ∨
          (t1 / msPerDay = t2 / msPerDay ∧ t1 mod msPerDay < t2 mod msPerDay)) as Hdays
    by (unfold msPerDay; Z.div_mod_to_equations; lia).
  assert (0 <= t1 mod msPerDay < 86400000 ∧ 0 <= t2 mod msPerDay < 86400000) as [Hms1 Hms2]
    by (unfold msPerDay; Z.div_mod_to_equations; lia).
  assert (t1 / msPerDay < t2 / msPerDay →
          let '(y1, m1, d1) := civil_from_days (t1 / msPerDay) in
          let '(y2, m2, d2) := civil_from_days (t2 / msPerDay) in
          384 * y1 + 32 * m1 + d1 < 384 * y2 + 32 * m2 + d2) as Hrank
    by apply civil_from_days_mono.
  assert (t1 / msPerDay = t2 / msPerDay →
          civil_from_days (t1 / msPerDay) = civil_from_days (t2 / msPerDay)) as Hsame
    by (by intros ->).
  revert H1 H2 Hb1 Hb2 Hdays Hms1 Hms2 Hrank Hsame.
  generalize (t1 mod msPerDay), (t2 mod msPerDay), (t1 / msPerDay), (t2 / msPerDay).
  intros ms1 ms2 days1 days2.
  destruct (civil_from_days days1) as [[y1 m1] d1], (civil_from_days days2) as [[y2 m2] d2].
  cbv zeta. intros (iso1' & Hiso1' & Hname1) (iso2' & Hiso2' & Hname2)
    Hb1 Hb2 Hdays Hms1 Hms2 Hrank Hsame.
  rewrite Hiso1 in Hiso1'. rewrite Hiso2 in Hiso2'.
  injection Hiso1' as <-. injection Hiso2' as <-. rewrite Hname1, Hname2.
  rewrite compare_stamp_name by (Z.div_mod_to_equations; lia).
  assert (days1 = days2 → y1 = y2 ∧ m1 = m2 ∧ d1 = d2) as Hsame'
    by (intros Heq; specialize (Hsame Heq); by injection Hsame as -> -> ->).
  clear Hsame Hiso1 Hiso2 Hname1 Hname2.
  destruct (Z.compare_spec y1 y2); [|done|lia].
  destruct (Z.compare_spec m1 m2); [|done|lia].
  destruct (Z.compare_spec d1 d2); [|done|lia].
  assert (days1 = days2 ∧ ms1 < ms2) as [_ Hms] by lia.
  clear Hrank Hsame' Hdays Hb1 Hb2.
  destruct (Z.compare_spec (ms1 / 3600000) (ms2 / 3600000));
    [|done|Z.div_mod_to_equations; lia].
  destruct (Z.compare_spec (ms1 / 60000 mod 60) (ms2 / 60000 mod 60));
    [|done|Z.div_mod_to_equations; lia].
  destruct (Z.compare_spec (ms1 / 1000 mod 60) (ms2 / 1000 mod 60));
    [|done|Z.div_mod_to_equations; lia].
  destruct (Z.compare_spec (ms1 mod 1000) (ms2 mod 1000));
    [|done|]; Z.div_mod_to_equations; lia.
Qed.

Lemma backup_filename_le t1 t2 iso1 iso2 :
  firstPlainYear <= t1 → t1 <= t2 → t2 <= lastPlainYear →
  Date_toISOString t1 = Some iso1 → Date_toISOString t2 = Some iso2 →
  String.le (backup_filename iso1) (backup_filename iso2).
Proof.
  intros Hlo Hle Hhi Hiso1 Hiso2.
  assert (t1 = t2 ∨ t1 < t2) as [->|Hlt] by lia.
  - rewrite Hiso1 in Hiso2. injection Hiso2 as ->. reflexivity.
  - unfold String.le, String.leb.
    by rewrite (backup_filename_lt t1 t2 iso1 iso2).
Qed.

(** X14.  Within the years 0000 to 9999 the names of snapshots follow
    time: of two timestamps the later one gives a different, and
    lexicographically greater, file name. *)
Theorem snapshot_names_follow_time (t1 t2 : Z) :
  firstPlainYear <= t1 → t1 < t2 → t2 <= lastPlainYear →
  ∃ iso1 iso2,
    Date_toISOString t1 = Some iso1 ∧ Date_toISOString t2 = Some iso2 ∧
    String.le (backup_filename iso1) (backup_filename iso2) ∧
    backup_filename iso1 ≠ backup_filename iso2.
Proof.
  intros Hlo Hlt Hhi.
  pose proof (backup_filename_plain t1 ltac:(lia)) as H1.
  pose proof (backup_filename_plain t2 ltac:(lia)) as H2.
  destruct (civil_from_days (t1 / msPerDay)) as [[y1 m1] d1].
  destruct (civil_from_days (t2 / msPerDay)) as [[y2 m2] d2].
  destruct H1 as (iso1 & Hiso1 & _), H2 as (iso2 & Hiso2 & _).
  exists iso1, iso2. split; [done|]. split; [done|]. split.
  - apply (backup_filename_le t1 t2); (done || lia).
  - intros Heq. pose proof (backup_filename_lt t1 t2 iso1 iso2 Hlo Hlt Hhi Hiso1 Hiso2) as Hcmp.
    rewrite Heq in Hcmp.
    assert (∀ s, String.compare s s = Eq) as Hrefl.
    { intros s. induction s as [|c s IH]; [done|]. simpl.
      by assert (Ascii.compare c c = Eq) as -> by (unfold Ascii.compare; apply N.compare_refl). }
    by rewrite Hrefl in Hcmp.
Qed.

Lemma snapshot_names_follow_time_witness :
  ∃ iso1 iso2,
    Date_toISOString 1700000000000 = Some iso1 ∧ Date_toISOString 1700000000001 = Some iso2 ∧
    String.le (backup_filename iso1) (backup_filename iso2) ∧
    backup_filename iso1 ≠ backup_filename iso2.
Proof.
  apply (snapshot_names_follow_time 1700000000000 1700000000001); by vm_compute.
Defined.







(** ** Repeating and failing *)




